(** * Root finding by bracketing and bisection (package [root])

    A shallow embedding of [root.go] and of the bisection file of the
    package.  Go's [float64] is Rocq's primitive binary64 [float], so
    every comparison, [math.Abs] and the arithmetic on locations round
    and treat NaN exactly as the program does.  The objective function
    is a pure [float -> float]; each invocation is recorded, in program
    order, in a log of probed locations that is threaded through every
    operation, and a Go [panic] is an outcome of its own. *)

From Stdlib Require Import Floats ZArith List String Bool Lia.
Import ListNotations.

Set Warnings "-inexact-float".

(** ** Go's [int] (64 bits, as on the 64-bit platforms; the counts of one
    call stay far below the point of wrap-around) *)

Module GoInt.

Definition wrap (z : Z) : Z :=
  ((z + 2 ^ 63) mod 2 ^ 64 - 2 ^ 63)%Z.

Definition add (a b : Z) : Z := wrap (a + b).

(** [n++] *)
Definition incr (n : Z) : Z := add n 1.

End GoInt.

(** ** The functions of Go's [math] package that the program calls *)

Module GoMath.

Local Open Scope float_scope.

Definition MaxFloat64 : float := 0x1.fffffffffffffp+1023.

(** [math.NaN()] *)
Definition NaN : float := nan.

(** [math.Inf(sign)] *)
Definition Inf (sign : Z) : float :=
  if (0 <=? sign)%Z then infinity else neg_infinity.

(** [math.IsNaN(f)] is [f != f]. *)
Definition IsNaN (f : float) : bool := negb (f =? f).

(** [math.IsInf(f, sign)]:
    [sign >= 0 && f > MaxFloat64 || sign <= 0 && f < -MaxFloat64]. *)
Definition IsInf (f : float) (sign : Z) : bool :=
  ((0 <=? sign)%Z && (MaxFloat64 <? f))
  || ((sign <=? 0)%Z && (f <? - MaxFloat64)).

(** [math.Abs] clears the sign bit. *)
Definition Abs (x : float) : float := abs x.

(** [math.Signbit], used on zeros only. *)
Definition Signbit (x : float) : bool := get_sign x.

(** [math.Min], with its special cases for -Inf, NaN and signed zeros. *)
Definition Min (x y : float) : float :=
  if IsInf x (-1) || IsInf y (-1) then Inf (-1)
  else if IsNaN x || IsNaN y then NaN
  else if (x =? 0) && (x =? y) then (if Signbit x then x else y)
  else if x <? y then x
  else y.

End GoMath.

(** ** Outcomes and the evaluation log *)

Inductive outcome (A : Type) : Type :=
| Returned (a : A)
| Panicked (msg : string).
Arguments Returned {A} a.
Arguments Panicked {A} msg.

(** A computation reads the log of locations probed so far and gives its
    outcome with the extended log. *)
Definition Eval (A : Type) : Type := list float -> outcome A * list float.

Definition ret {A : Type} (a : A) : Eval A := fun log => (Returned a, log).

Definition bind {A B : Type} (m : Eval A) (k : A -> Eval B) : Eval B :=
  fun log =>
    match m log with
    | (Returned a, log') => k a log'
    | (Panicked msg, log') => (Panicked msg, log')
    end.

Definition panic {A : Type} (msg : string) : Eval A :=
  fun log => (Panicked msg, log).

(** One invocation of the objective function. *)
Definition call (f : float -> float) (x : float) : Eval float :=
  fun log => (Returned (f x), log ++ [x]).

Declare Scope eval_scope.
Delimit Scope eval_scope with eval.
Notation "x <- m ;; k" := (bind m (fun x => k))
  (at level 61, m at next level, right associativity) : eval_scope.
Notation "' pat <- m ;; k" := (bind m (fun x => match x with pat => k end))
  (at level 61, pat pattern, m at next level, right associativity) : eval_scope.

(** ** The package *)

Module Root.

Import GoMath.
Local Open Scope float_scope.
Local Open Scope eval_scope.

Inductive error : Type :=
| ErrMaxEval
| ErrNaN
| ErrNoRoot
| ErrNew (msg : string).

Definition noRootIter : nat := 100.

Record bound : Type := mkBound { loc : float; value : float }.

(** The zero value of the struct, which named results start from. *)
Definition zeroBound : bound := mkBound 0 0.

Definition with_loc (b : bound) (l : float) : bound := mkBound l (value b).
Definition with_value (b : bound) (v : float) : bound := mkBound (loc b) v.

Record Settings : Type := mkSettings {
  UseMinValue : bool;
  MinValue : float;
  UseMaxValue : bool;
  MaxValue : float;
  MaxEvals : Z;
  Concurrent : bool;
  MaxWorkers : Z
}.

(** [Settings{}] *)
Definition zeroSettings : Settings :=
  mkSettings false 0 false 0 0 false 0.

Definition sameSign (a b : float) : bool :=
  ((0 <? a) && (0 <? b)) || ((a <? 0) && (b <? 0)).

Definition minBoundValue (a b : bound) : float :=
  let absA := Abs (value a) in
  let absB := Abs (value b) in
  Min absA absB.

(** The results of the bound stage: both bounds, the evaluation count
    and the error ([None] is [nil]). *)
Definition bounds : Type := (bound * bound * Z * option error)%type.

(** [infSearch]: the loop, with [n] the iterations left; falling out of
    the loop (by [break] or by exhausting it) reaches the last return.
    [step] is a power of two, so [step * dir] is exact for the directions
    1 and -1 and [start.loc + step*dir] rounds once, fused or not. *)
Fixpoint infSearchLoop (n : nat) (f : float -> float) (start : bound)
    (dir : float) (maxFunEvals : Z)
    (step : float) (newStart : bound) (nFunEvals : Z) : Eval bounds :=
  let exhausted : Eval bounds :=
    if dir =? 1
    then ret (newStart, mkBound NaN 0, nFunEvals, Some ErrMaxEval)
    else ret (mkBound NaN 0, newStart, nFunEvals, Some ErrMaxEval) in
  match n with
  | O => exhausted
  | S n' =>
      if (0 <? maxFunEvals)%Z && (maxFunEvals <? nFunEvals)%Z then exhausted
      else
        let newLoc := loc start + step * dir in
        newValue <- call f newLoc ;;
        let nFunEvals := GoInt.incr nFunEvals in
        if IsNaN newValue then
          if dir =? 1
          then ret (newStart, mkBound NaN 0, nFunEvals, Some ErrNaN)
          else ret (mkBound NaN 0, newStart, nFunEvals, Some ErrNaN)
        else if (newValue =? 0) || negb (sameSign (value newStart) newValue) then
          if dir =? 1
          then ret (newStart, mkBound newLoc newValue, nFunEvals, None)
          else ret (mkBound newLoc newValue, newStart, nFunEvals, None)
        else
          infSearchLoop n' f start dir maxFunEvals
            (step * 2) (mkBound newLoc newValue) nFunEvals
  end.

Definition infSearch (f : float -> float) (start : bound) (dir : float)
    (nFunEvals maxFunEvals : Z) : Eval bounds :=
  infSearchLoop noRootIter f start dir maxFunEvals 1 start nFunEvals.

(** [getBoundsFinite].  With [Concurrent] set the two evaluations run
    in goroutines that are joined before either value is read; the
    values are those of the sequential path, and the log lists the
    probes in program order. *)
Definition getBoundsFinite (f : float -> float) (min max : float)
    (settings : option Settings) : Eval (float * float * Z) :=
  let nFunEvals := 0%Z in
  '(minVal, nFunEvals) <-
    match settings with
    | Some s =>
        if UseMinValue s then ret (MinValue s, nFunEvals)
        else v <- call f min ;; ret (v, GoInt.incr nFunEvals)
    | None => v <- call f min ;; ret (v, GoInt.incr nFunEvals)
    end ;;
  '(maxVal, nFunEvals) <-
    match settings with
    | Some s =>
        if UseMaxValue s then ret (MaxValue s, nFunEvals)
        else v <- call f max ;; ret (v, GoInt.incr nFunEvals)
    | None => v <- call f max ;; ret (v, GoInt.incr nFunEvals)
    end ;;
  ret (minVal, maxVal, nFunEvals).

Definition signsOpposite (zero one : float) : bool :=
  ((0 <? zero) && (one <? 0)) || ((zero <? 0) && (0 <? one)).

(** [getBoundsInfinite].  The evaluations at a finite [min] or [max]
    are not counted in [nFunEvals], as in the source. *)
Definition getBoundsInfinite (f : float -> float) (min max : float)
    (settings : option Settings) : Eval bounds :=
  let minInf := IsInf min (-1) in
  let maxInf := IsInf max 1 in
  let nFunEvals := 0%Z in
  minBound <-
    (if negb minInf then
       let minBound := mkBound min 0 in
       match settings with
       | Some s =>
           if UseMinValue s then ret (with_value minBound (MinValue s))
           else v <- call f min ;; ret (with_value minBound v)
       | None => v <- call f min ;; ret (with_value minBound v)
       end
     else ret zeroBound) ;;
  maxBound <-
    (if negb maxInf then
       let maxBound := mkBound max 0 in
       match settings with
       | Some s =>
           if UseMaxValue s then ret (with_value maxBound (MaxValue s))
           else v <- call f max ;; ret (with_value maxBound v)
       | None => v <- call f max ;; ret (with_value maxBound v)
       end
     else ret zeroBound) ;;
  st <-
    (if minInf && maxInf then
       zero <- call f 0 ;;
       one <- call f 1 ;;
       let nFunEvals := GoInt.add nFunEvals 2 in
       if signsOpposite zero one then
         let minBound := with_loc minBound 0 in
         let maxBound := with_loc maxBound 1 in
         let minBound := with_value minBound zero in
         let maxBound := with_value maxBound one in
         ret (inl (minBound, maxBound, nFunEvals, @None error))
       else if (0 <? zero) && (0 <? one) then
         if zero <? one then
           let maxBound := with_value (with_loc maxBound 0) zero in
           ret (inr (minBound, maxBound, minInf, false, nFunEvals))
         else
           let minBound := with_value (with_loc minBound 1) one in
           ret (inr (minBound, maxBound, false, maxInf, nFunEvals))
       else
         if one <? zero then
           let maxBound := with_value (with_loc maxBound 0) zero in
           ret (inr (minBound, maxBound, minInf, false, nFunEvals))
         else
           let minBound := with_value (with_loc minBound 1) one in
           ret (inr (minBound, maxBound, false, maxInf, nFunEvals))
     else ret (inr (minBound, maxBound, minInf, maxInf, nFunEvals))) ;;
  match st with
  | inl r => ret r
  | inr (minBound, maxBound, minInf, maxInf, nFunEvals) =>
      let maxEvals :=
        match settings with Some s => MaxEvals s | None => 0%Z end in
      if maxInf then infSearch f minBound 1 nFunEvals maxEvals
      else if minInf then infSearch f maxBound (-1) nFunEvals maxEvals
      else panic "unreachable"
  end.

(** The check of a known value in [getBoundVals]: [Some r] is an early
    [return] of the named results as they stand. *)
Definition knownValueCheck (use isInf : bool) (msg : string)
    (s : Settings) (tol : float) : option bounds :=
  if use then
    if isInf then Some (zeroBound, zeroBound, 0%Z, Some (ErrNew msg))
    else if Abs (MaxValue s) <? tol then Some (zeroBound, zeroBound, 0%Z, None)
    else None
  else None.

Definition getBoundVals (f : float -> float) (min max tol : float)
    (settings : option Settings) : Eval bounds :=
  if max <=? min then panic "minimum less than maximum"
  else
    let minInf := IsInf min (-1) in
    let maxInf := IsInf max 1 in
    let minCheck :=
      match settings with
      | Some s =>
          knownValueCheck (UseMinValue s) minInf
            "Using minimum value when minimum bound is infinity" s tol
      | None => None
      end in
    let maxCheck :=
      match settings with
      | Some s =>
          knownValueCheck (UseMaxValue s) maxInf
            "Using maximum value when maximum bound is infinity" s tol
      | None => None
      end in
    match minCheck with
    | Some r => ret r
    | None =>
        match maxCheck with
        | Some r => ret r
        | None =>
            if minInf || maxInf then getBoundsInfinite f min max settings
            else
              '(minVal, maxVal, nFunEvals) <- getBoundsFinite f min max settings ;;
              ret (mkBound min minVal, mkBound max maxVal, nFunEvals, None)
        end
    end.

(** One pass through the body of the loop of [bisection]: a return
    ([inl]) or the bounds and count carried to the next iteration. *)
Definition bisectionBody (f : float -> float) (tol : float) (maxFunEvals : Z)
    (minBound maxBound : bound) (nFunEvals : Z)
    : Eval ((float * option error) + (bound * bound * Z)) :=
  let mid := (loc minBound + loc maxBound) / 2 in
  midValue <- call f mid ;;
  let nFunEvals := GoInt.incr nFunEvals in
  if IsNaN midValue then
    ret (inl (minBoundValue minBound maxBound, Some ErrNaN))
  else if Abs midValue <? tol then
    ret (inl (mid, None))
  else if (0 <? maxFunEvals)%Z && (maxFunEvals <? nFunEvals)%Z then
    ret (inl (minBoundValue minBound maxBound, Some ErrMaxEval))
  else if sameSign (value minBound) midValue then
    ret (inr (with_value (with_loc minBound mid) midValue, maxBound, nFunEvals))
  else
    ret (inr (minBound, with_value (with_loc maxBound mid) midValue, nFunEvals)).

Fixpoint bisectionLoop (n : nat) (f : float -> float) (tol : float)
    (maxFunEvals : Z) (minBound maxBound : bound) (nFunEvals : Z)
    : Eval (float * option error) :=
  match n with
  | O => ret (minBoundValue minBound maxBound, Some ErrMaxEval)
  | S n' =>
      r <- bisectionBody f tol maxFunEvals minBound maxBound nFunEvals ;;
      match r with
      | inl res => ret res
      | inr (minBound, maxBound, nFunEvals) =>
          bisectionLoop n' f tol maxFunEvals minBound maxBound nFunEvals
      end
  end.

Definition bisection (f : float -> float) (minBound maxBound : bound)
    (tol : float) (nFunEvals maxFunEvals : Z) : Eval (float * option error) :=
  bisectionLoop noRootIter f tol maxFunEvals minBound maxBound nFunEvals.

Definition Find (f : float -> float) (min max tol : float)
    (settings : option Settings) : Eval (float * option error) :=
  '(minBound, maxBound, nFunEvals, err) <- getBoundVals f min max tol settings ;;
  match err with
  | Some e => ret (minBoundValue minBound maxBound, Some e)
  | None =>
      if Abs (value minBound) <? tol then ret (loc minBound, None)
      else if Abs (value maxBound) <? tol then ret (loc maxBound, None)
      else
        let maxEvals :=
          match settings with None => 0%Z | Some s => MaxEvals s end in
        bisection f minBound maxBound tol nFunEvals maxEvals
  end.

End Root.

(** ** Notions the statements below are phrased with *)

Module Trace.

Import GoMath Root.
Local Open Scope float_scope.

(** The step of [infSearch] at the start of iteration [k]: 1, doubled
    [k] times. *)
Fixpoint stepAt (k : nat) : float :=
  match k with
  | O => 1
  | S k' => stepAt k' * 2
  end.

(** The location probed in iteration [k]. *)
Definition probeAt (start : bound) (dir : float) (k : nat) : float :=
  loc start + stepAt k * dir.

(** The running bound ([newStart]) at the start of iteration [k], when
    no earlier iteration returned. *)
Definition runningAt (f : float -> float) (start : bound) (dir : float)
    (k : nat) : bound :=
  match k with
  | O => start
  | S k' => mkBound (probeAt start dir k') (f (probeAt start dir k'))
  end.

(** Iteration [k] finds neither a NaN, nor a zero, nor a sign change. *)
Definition keepsGoing (f : float -> float) (start : bound) (dir : float)
    (k : nat) : bool :=
  let v := f (probeAt start dir k) in
  negb (IsNaN v)
  && negb ((v =? 0) || negb (sameSign (value (runningAt f start dir k)) v)).

(** What [infSearch] returns when it leaves its loop without a result. *)
Definition exhausted (dir : float) (newStart : bound) (nFunEvals : Z) : bounds :=
  if dir =? 1
  then (newStart, mkBound NaN 0, nFunEvals, Some ErrMaxEval)
  else (mkBound NaN 0, newStart, nFunEvals, Some ErrMaxEval).

(** The bounds, count and log that [bisection] holds after [k] passes
    through its loop body, when none of them returned. *)
Fixpoint bisectionState (k : nat) (f : float -> float) (tol : float)
    (maxFunEvals : Z) (minBound maxBound : bound) (nFunEvals : Z)
    (log : list float) : option (bound * bound * Z * list float) :=
  match k with
  | O => Some (minBound, maxBound, nFunEvals, log)
  | S k' =>
      match bisectionBody f tol maxFunEvals minBound maxBound nFunEvals log with
      | (Returned (inr (a, b, c)), log') =>
          bisectionState k' f tol maxFunEvals a b c log'
      | _ => None
      end
  end.

(** A bound whose value is the function's value at its location. *)
Definition evaluated (f : float -> float) (b : bound) : Prop :=
  value b = f (loc b).

(** A computation that invokes the objective function at most [n] times:
    from any log it ends with the log extended by at most [n] probes. *)
Definition bounded {A : Type} (n : nat) (m : Eval A) : Prop :=
  forall log : list float,
  exists probes : list float,
    snd (m log) = log ++ probes /\ List.length probes <= n.

(** In a run that probed [probes] and ended with the error [e], a probe
    whose value is NaN is the last probe, and the error is [ErrNaN]. *)
Definition nanEnds (f : float -> float) (probes : list float)
    (e : option error) : Prop :=
  forall (pre : list float) (p : float) (post : list float),
    probes = pre ++ p :: post ->
    IsNaN (f p) = true ->
    post = [] /\ e = Some ErrNaN.

(** The objective function of the package's test, [x - 7]. *)
Definition linear (x : float) : float := x - 7.

(** Objective functions and settings of the concrete runs. *)
Definition shifted (x : float) : float := x + 3.
Definition nanAtFive (x : float) : float := if x =? 5 then NaN else 2 * x - 4.
Definition nanAtZero (x : float) : float := if x =? 0 then NaN else x - 5.
Definition parabola (x : float) : float := x * x + 1.

(** [Settings{UseMaxValue: true, MaxValue: 0}] *)
Definition knownMaxZero : Settings := mkSettings false 0 true 0 0 false 0.
(** [Settings{UseMinValue: true, MinValue: 0}] *)
Definition knownMinZero : Settings := mkSettings true 0 false 0 0 false 0.
(** [Settings{MaxEvals: 3}] *)
Definition threeEvals : Settings := mkSettings false 0 false 0 3 false 0.

End Trace.

(** ** Postconditions on a run *)

Module Post.

Import Root.

(** [post m Q]: from any log, [m] extends the log by some probes, and
    when it returns [a] the result and the new probes satisfy [Q]. *)
Definition post {A : Type} (m : Eval A) (Q : A -> list float -> Prop) : Prop :=
  forall log : list float,
  exists probes : list float,
    snd (m log) = log ++ probes
    /\ match fst (m log) with
       | Returned a => Q a probes
       | Panicked _ => True
       end.

(** A computation that never panics. *)
Definition returns {A : Type} (m : Eval A) : Prop :=
  forall log : list float,
  exists (a : A) (log' : list float), m log = (Returned a, log').

(** The errors the package produces. *)
Definition produced (e : option error) : Prop :=
  e = None
  \/ e = Some ErrMaxEval
  \/ e = Some ErrNaN
  \/ e = Some (ErrNew "Using minimum value when minimum bound is infinity")
  \/ e = Some (ErrNew "Using maximum value when maximum bound is infinity").

(** The error of a loop is nil, [ErrMaxEval] or [ErrNaN]. *)
Definition loopError (e : option error) : Prop :=
  e = None \/ e = Some ErrMaxEval \/ e = Some ErrNaN.

(** The count of a result of the bound stage, and its error. *)
Definition countOf (r : bounds) : Z := snd (fst r).
Definition errOf (r : bounds) : option error := snd r.
Definition minOf (r : bounds) : bound := fst (fst (fst r)).
Definition maxOf (r : bounds) : bound := snd (fst (fst r)).

(** The two bounds of a result of [infSearch] in the direction [dir]:
    first the one on the side the search started from, then the one on
    the side it searched. *)
Definition nearFar (dir : float) (r : bounds) : bound * bound :=
  if (dir =? 1)%float then (minOf r, maxOf r) else (maxOf r, minOf r).

(** What holds of a result [r] of the bound stage and of the probes [P]
    it made, under the cap [m]: the error is one the package produces,
    the count is the number of probes or one less, and under a cap the
    stage makes at most [m + 2] probes. *)
Definition boundStage (m : Z) (r : bounds) (P : list float) : Prop :=
  produced (errOf r)
  /\ (0 <= countOf r <= 102)%Z
  /\ (countOf r <= Z.of_nat (List.length P) <= countOf r + 1)%Z
  /\ ((0 < m)%Z -> (Z.of_nat (List.length P) <= m + 2)%Z).

(** The settings [s] with [MaxEvals] set to [m]. *)
Definition withMaxEvals (s : Settings) (m : Z) : Settings :=
  mkSettings (UseMinValue s) (MinValue s) (UseMaxValue s) (MaxValue s)
    m (Concurrent s) (MaxWorkers s).

(** The cap of the settings: [MaxEvals], 0 when there are none. *)
Definition capOf (settings : option Settings) : Z :=
  match settings with Some s => MaxEvals s | None => 0%Z end.

End Post.

(** ** The Newton iteration of the package

    [Compute] of the type [Newton].  The interface [general.FuncDiffer]
    and the function [general.Tolerance] belong to another package: the
    interface is the record of the two functions it hands out, and
    [Tolerance] is a parameter of the model.  The receiver is taken with
    its [fn] set. *)

Module NewtonMethod.

Local Open Scope float_scope.

Record FuncDiffer : Type := mkFuncDiffer {
  Function : float -> float;
  Diff : float -> float
}.

Record Newton : Type := mkNewton {
  Max_Iter : Z;
  Tol : float;
  fn : FuncDiffer
}.

Section Compute.

Variable Tolerance : float -> float -> float -> bool.

(** The loop of [Compute], with [k] the iterations left; [p0] is not
    assigned inside the loop. *)
Fixpoint ComputeLoop (k : nat) (n : Newton) (p0 p : float) : float :=
  match k with
  | O => p
  | S k' =>
      let f := Function (fn n) in
      let fp := Diff (fn n) in
      let p := p0 - f p0 / fp p0 in
      if Tolerance p p0 (Tol n) then p
      else ComputeLoop k' n p0 p
  end.

Definition Compute (n : Newton) (x0 : float) : float :=
  let p0 := x0 in
  let p := p0 in
  ComputeLoop (Z.to_nat (Max_Iter n)) n p0 p.

End Compute.

End NewtonMethod.

Import GoMath Root Trace.
Local Open Scope float_scope.

(** ** The package's own test cases ([TestFind]) *)

Example TestFind_EasyLinear :
  exists ans probes,
    Find linear (-3) 10 1e-14 None [] = (Returned (ans, None), probes)
    /\ (Abs (ans - 7) <=? 1e-14) = true.
Proof. eexists; eexists; split; vm_compute; reflexivity. Qed.

Example TestFind_NegInfLinear :
  exists ans probes,
    Find linear (Inf (-1)) 9.5 1e-14 None [] = (Returned (ans, None), probes)
    /\ (Abs (ans - 7) <=? 1e-14) = true.
Proof. eexists; eexists; split; vm_compute; reflexivity. Qed.

Example TestFind_PosInfLinear :
  exists ans probes,
    Find linear 0.1 (Inf 1) 1e-14 None [] = (Returned (ans, None), probes)
    /\ (Abs (ans - 7) <=? 1e-14) = true.
Proof. eexists; eexists; split; vm_compute; reflexivity. Qed.

Example TestFind_BothInfLinear :
  exists ans probes,
    Find linear (Inf (-1)) (Inf 1) 1e-14 None [] = (Returned (ans, None), probes)
    /\ (Abs (ans - 7) <=? 1e-14) = true.
Proof. eexists; eexists; split; vm_compute; reflexivity. Qed.

(** ** Signs of binary64 values *)

Section Signs.

Lemma Prim2SF_zero : Prim2SF 0 = S754_zero false.
Proof. reflexivity. Qed.

Lemma pos_not_neg (a : float) : (0 <? a) = true -> (a <? 0) = false.
Proof.
  rewrite !ltb_spec, Prim2SF_zero.
  destruct (Prim2SF a) as [s|s| |s m e]; unfold SFltb; simpl;
    try discriminate; destruct s; simpl; congruence.
Qed.

Lemma neg_not_pos (a : float) : (a <? 0) = true -> (0 <? a) = false.
Proof.
  intros H. destruct (0 <? a) eqn:E; [|reflexivity].
  apply pos_not_neg in E. congruence.
Qed.

(** A value that is not NaN and whose magnitude is not below a positive
    tolerance is strictly positive or strictly negative. *)
Lemma nonzero_signed (v tol : float) :
  IsNaN v = false -> (0 <? tol) = true -> (Abs v <? tol) = false ->
  (0 <? v) = true \/ (v <? 0) = true.
Proof.
  unfold IsNaN, Abs.
  rewrite !ltb_spec, FloatAxioms.eqb_spec, abs_spec, Prim2SF_zero.
  destruct (Prim2SF v) as [s|s| |s m e]; unfold SFltb, SFeqb; simpl.
  - intros _ H1 H2. congruence.
  - destruct s; auto.
  - discriminate.
  - destruct s; auto.
Qed.

Lemma signsOpposite_cases (a b : float) :
  signsOpposite a b = true ->
  ((0 <? a) = true /\ (b <? 0) = true) \/ ((a <? 0) = true /\ (0 <? b) = true).
Proof.
  unfold signsOpposite. intros H.
  apply orb_true_iff in H. destruct H as [H|H];
    apply andb_true_iff in H; auto.
Qed.

End Signs.

(** ** The domain check *)

(** C2, as the code has it: for every objective function, tolerance,
    settings and log, a domain with [min >= max] makes [Find] panic with
    "minimum less than maximum" -- the call does not return a failure
    value -- and the objective function is not invoked (the log is
    unchanged). *)
Theorem Find_invalid_domain_panics_without_eval :
  forall (f : float -> float) (min max tol : float)
         (settings : option Settings) (log : list float),
    (max <=? min) = true ->
    Find f min max tol settings log
    = (Panicked "minimum less than maximum", log).
Proof.
  intros f min max tol settings log Hdom.
  unfold Find, bind, getBoundVals.
  rewrite Hdom. reflexivity.
Qed.

Lemma Find_invalid_domain_panics_without_eval_witness :
  (0 <=? 1) = true
  /\ Find linear 1 0 1e-14 None [] = (Panicked "minimum less than maximum", []).
Proof.
  split.
  - reflexivity.
  - apply (Find_invalid_domain_panics_without_eval linear 1 0 1e-14 None []).
    reflexivity.
Defined.

(** C2 as stated fails: on the reversed domain [1, 0] the call ends in a
    panic, not in a returned (location, error) pair. *)
Lemma Find_reversed_domain_is_not_a_returned_failure :
  (0 <=? 1) = true
  /\ fst (Find linear 1 0 1e-14 None []) = Panicked "minimum less than maximum"
  /\ (match fst (Find linear 1 0 1e-14 None []) with
      | Returned _ => true
      | Panicked _ => false
      end) = false.
Proof. split; [|split]; vm_compute; reflexivity. Qed.

(** ** Absent settings *)

(** C10: for every objective function, domain, tolerance and log, [Find]
    with a nil settings pointer gives the same outcome (location and
    error, or panic) and the same probes as [Find] with the address of a
    zero-valued [Settings]. *)
Theorem Find_nil_settings_same_as_zero_settings :
  forall (f : float -> float) (min max tol : float) (log : list float),
    Find f min max tol None log = Find f min max tol (Some zeroSettings) log.
Proof.
  intros f min max tol log.
  unfold Find, bind, getBoundVals.
  destruct (max <=? min); [reflexivity|].
  cbn [zeroSettings knownValueCheck UseMinValue UseMaxValue MaxEvals].
  destruct (IsInf min (-1) || IsInf max 1); reflexivity.
Qed.

(** ** Both sides infinite: which anchor is kept *)

(** C7, as the code has it: with both sides infinite and anchor values
    [f 0] and [f 1] that are not of opposite sign, the two anchors are
    probed (0, then 1) and the doubling search continues from one of
    them.  In the negative direction the max side is fixed at the anchor
    0 with value [f 0]; in the positive direction the min side is fixed
    at the anchor 1 with value [f 1].  The direction is negative when
    both values are positive and [f 0 < f 1], or when they are not both
    positive and [f 0 > f 1]. *)
Theorem getBoundsInfinite_anchor_kept :
  forall (f : float -> float) (min max : float)
         (settings : option Settings) (log : list float),
    IsInf min (-1) = true ->
    IsInf max 1 = true ->
    signsOpposite (f 0) (f 1) = false ->
    let maxEvals := match settings with Some s => MaxEvals s | None => 0%Z end in
    let negative :=
      if (0 <? f 0) && (0 <? f 1) then f 0 <? f 1 else f 1 <? f 0 in
    getBoundsInfinite f min max settings log
    = if negative
      then infSearch f (mkBound 0 (f 0)) (-1) 2 maxEvals (log ++ [0; 1])
      else infSearch f (mkBound 1 (f 1)) 1 2 maxEvals (log ++ [0; 1]).
Proof.
  intros f min max settings log Hmin Hmax Hopp maxEvals negative.
  subst maxEvals negative.
  unfold getBoundsInfinite, bind, call, ret.
  rewrite Hmin, Hmax. cbn [negb andb].
  rewrite Hopp, <- app_assoc. cbn [app].
  destruct ((0 <? f 0) && (0 <? f 1));
    [destruct (f 0 <? f 1) | destruct (f 1 <? f 0)]; reflexivity.
Qed.

Lemma getBoundsInfinite_anchor_kept_witness :
  getBoundsInfinite (fun x => x + 1) (Inf (-1)) (Inf 1) None []
  = infSearch (fun x => x + 1) (mkBound 0 1) (-1) 2 0 [0; 1].
Proof.
  apply (getBoundsInfinite_anchor_kept (fun x => x + 1) (Inf (-1)) (Inf 1) None []);
    reflexivity.
Defined.

(** C7 as stated fails in the negative direction: for [f x = x + 1] the
    anchors give 1 and 2, the search goes in the negative direction, and
    the search starts from the anchor 0, kept as the max side: its first
    probe is at -1 and three evaluations are counted.  A search started
    from the anchor 1 would probe 0 again before -1 and count four. *)
Lemma getBoundsInfinite_negative_direction_keeps_anchor_zero :
  signsOpposite (0 + 1) (1 + 1) = false
  /\ getBoundsInfinite (fun x => x + 1) (Inf (-1)) (Inf 1) None []
     = (Returned (mkBound (-1) 0, mkBound 0 1, 3%Z, None), [0; 1; -1])
  /\ infSearch (fun x => x + 1) (mkBound 1 2) (-1) 2 0 [0; 1]
     = (Returned (mkBound (-1) 0, mkBound 0 1, 4%Z, None), [0; 1; 0; -1]).
Proof. split; [|split]; vm_compute; reflexivity. Qed.

(** ** The bracket held by bisection *)

Section Bisection.

Variables (f : float -> float) (tol : float) (maxFunEvals : Z).
Hypothesis tol_pos : (0 <? tol) = true.

(** What one pass through the loop body does when it does not return. *)
Lemma bisectionBody_continues (minB maxB : bound) (n : Z) (log : list float)
    (minB' maxB' : bound) (n' : Z) (log' : list float) :
  bisectionBody f tol maxFunEvals minB maxB n log
  = (Returned (inr (minB', maxB', n')), log') ->
  let mid := (loc minB + loc maxB) / 2 in
  IsNaN (f mid) = false
  /\ (Abs (f mid) <? tol) = false
  /\ n' = GoInt.incr n
  /\ log' = log ++ [mid]
  /\ ((sameSign (value minB) (f mid) = true
       /\ minB' = mkBound mid (f mid) /\ maxB' = maxB)
      \/ (sameSign (value minB) (f mid) = false
          /\ minB' = minB /\ maxB' = mkBound mid (f mid))).
Proof.
  unfold bisectionBody, bind, call, ret. cbn zeta.
  destruct (IsNaN _); [discriminate|].
  destruct (Abs _ <? tol); [discriminate|].
  destruct (_ && _)%bool; [discriminate|].
  destruct (sameSign _ _) eqn:Hs; intros H; inversion H; subst;
    repeat split; auto.
Qed.

(** The narrowing step keeps values of strictly opposite sign, and the
    bound it replaces shares the sign of the midpoint value. *)
Lemma bisectionBody_narrows (minB maxB : bound) (n : Z) (log : list float)
    (minB' maxB' : bound) (n' : Z) (log' : list float) :
  signsOpposite (value minB) (value maxB) = true ->
  bisectionBody f tol maxFunEvals minB maxB n log
  = (Returned (inr (minB', maxB', n')), log') ->
  let mid := (loc minB + loc maxB) / 2 in
  signsOpposite (value minB') (value maxB') = true
  /\ ((minB' = mkBound mid (f mid) /\ maxB' = maxB
       /\ sameSign (value minB) (f mid) = true)
      \/ (minB' = minB /\ maxB' = mkBound mid (f mid)
          /\ sameSign (value maxB) (f mid) = true)).
Proof.
  intros Hopp Hbody.
  apply bisectionBody_continues in Hbody.
  destruct Hbody as (Hnan & Htol & _ & _ & Hcase).
  pose proof (nonzero_signed _ _ Hnan tol_pos Htol) as Hsign.
  cbn zeta in *. set (m := f _) in *.
  pose proof (pos_not_neg (value minB)) as A1.
  pose proof (pos_not_neg (value maxB)) as A2.
  pose proof (pos_not_neg m) as A3.
  unfold signsOpposite, sameSign in *.
  destruct Hcase as [(Hs & -> & ->) | (Hs & -> & ->)]; cbn [value];
    destruct (0 <? value minB), (value minB <? 0),
             (0 <? value maxB), (value maxB <? 0), (0 <? m), (m <? 0);
    cbn in *;
    try discriminate;
    try (destruct Hsign; discriminate);
    try (specialize (A1 eq_refl); discriminate);
    try (specialize (A2 eq_refl); discriminate);
    try (specialize (A3 eq_refl); discriminate);
    (split; [reflexivity|]);
    solve [left; repeat split | right; repeat split].
Qed.

(** The states of [bisectionState] are the ones the loop runs through:
    after [k] passes that did not return, [bisection] goes on from the
    state held then. *)
Lemma bisectionLoop_from_state (k n : nat) (minB maxB : bound) (c : Z)
    (log : list float) (minB' maxB' : bound) (c' : Z) (log' : list float) :
  bisectionState k f tol maxFunEvals minB maxB c log
  = Some (minB', maxB', c', log') ->
  bisectionLoop (k + n) f tol maxFunEvals minB maxB c log
  = bisectionLoop n f tol maxFunEvals minB' maxB' c' log'.
Proof.
  revert minB maxB c log.
  induction k as [|k IH]; intros minB maxB c log Hst;
    cbn [bisectionState] in Hst.
  - inversion Hst; subst. reflexivity.
  - cbn [Nat.add bisectionLoop]. unfold bind at 1.
    destruct (bisectionBody f tol maxFunEvals minB maxB c log)
      as [[[res | [[a b] d]] | msg] l]; try discriminate.
    apply IH. exact Hst.
Qed.

End Bisection.

(** C8, as the code has it: for a tolerance that is strictly positive,
    every objective function and every bracket whose two values are of
    strictly opposite sign, the bounds held after any number of passes
    through the loop of [bisection] still have values of strictly
    opposite sign, and a further pass that does not return replaces, by
    the midpoint, the bound whose value shares the sign of the midpoint
    value and leaves the other bound as it is. *)
Theorem bisection_keeps_opposite_signs :
  forall (f : float -> float) (tol : float) (maxFunEvals : Z)
         (minBound maxBound : bound) (nFunEvals : Z) (log : list float)
         (k : nat) (minB maxB : bound) (c : Z) (l : list float),
    (0 <? tol) = true ->
    signsOpposite (value minBound) (value maxBound) = true ->
    bisectionState k f tol maxFunEvals minBound maxBound nFunEvals log
    = Some (minB, maxB, c, l) ->
    signsOpposite (value minB) (value maxB) = true
    /\ forall (minB' maxB' : bound) (c' : Z) (l' : list float),
         bisectionBody f tol maxFunEvals minB maxB c l
         = (Returned (inr (minB', maxB', c')), l') ->
         let mid := (loc minB + loc maxB) / 2 in
         signsOpposite (value minB') (value maxB') = true
         /\ ((minB' = mkBound mid (f mid) /\ maxB' = maxB
              /\ sameSign (value minB) (f mid) = true)
             \/ (minB' = minB /\ maxB' = mkBound mid (f mid)
                 /\ sameSign (value maxB) (f mid) = true)).
Proof.
  intros f tol maxFunEvals minBound maxBound nFunEvals log k.
  revert minBound maxBound nFunEvals log.
  induction k as [|k IH];
    intros minBound maxBound nFunEvals log minB maxB c l Htol Hopp Hst;
    cbn [bisectionState] in Hst.
  - inversion Hst; subst. split; [exact Hopp|].
    intros minB' maxB' c' l' Hbody.
    exact (bisectionBody_narrows f tol maxFunEvals Htol _ _ _ _ _ _ _ _ Hopp Hbody).
  - destruct (bisectionBody f tol maxFunEvals minBound maxBound nFunEvals log)
      as [[[res | [[a b] d]] | msg] l0] eqn:Hbody; try discriminate.
    apply (IH a b d l0); auto.
    exact (proj1 (bisectionBody_narrows f tol maxFunEvals Htol _ _ _ _ _ _ _ _ Hopp Hbody)).
Qed.

Lemma bisection_keeps_opposite_signs_witness :
  bisectionBody linear 0.5 0 (mkBound 1.25 (-5.75)) (mkBound 8.5 1.5) 1 [1.25]
  = (Returned (inr (mkBound 4.875 (-2.125), mkBound 8.5 1.5, 2%Z)), [1.25; 4.875])
  /\ signsOpposite (-5.75) 1.5 = true
  /\ forall (minB' maxB' : bound) (c' : Z) (l' : list float),
       bisectionBody linear 0.5 0 (mkBound 1.25 (-5.75)) (mkBound 8.5 1.5) 1
         [1.25]
       = (Returned (inr (minB', maxB', c')), l') ->
       let mid := (1.25 + 8.5) / 2 in
       signsOpposite (value minB') (value maxB') = true
       /\ ((minB' = mkBound mid (linear mid) /\ maxB' = mkBound 8.5 1.5
            /\ sameSign (-5.75) (linear mid) = true)
           \/ (minB' = mkBound 1.25 (-5.75) /\ maxB' = mkBound mid (linear mid)
               /\ sameSign 1.5 (linear mid) = true)).
Proof.
  split; [reflexivity|].
  apply (bisection_keeps_opposite_signs linear 0.5 0
           (mkBound (-6) (-13)) (mkBound 8.5 1.5) 0 [] 1
           (mkBound 1.25 (-5.75)) (mkBound 8.5 1.5) 1 [1.25]).
  - reflexivity.
  - reflexivity.
  - reflexivity.
Defined.

(** C8 as stated fails for a tolerance of zero: for the identity function
    and the bracket (-1, 1), the midpoint value is exactly 0, which is not
    below the tolerance; the max bound is replaced although its value
    does not share a sign with 0, and the values held next, -1 and 0,
    are not of strictly opposite sign. *)
Lemma bisection_zero_tolerance_loses_opposite_signs :
  signsOpposite (-1) 1 = true
  /\ bisectionState 1 (fun x => x) 0 0 (mkBound (-1) (-1)) (mkBound 1 1) 2 []
     = Some (mkBound (-1) (-1), mkBound 0 0, 3%Z, [0])
  /\ signsOpposite (-1) 0 = false
  /\ sameSign 1 0 = false.
Proof. split; [|split; [|split]]; vm_compute; reflexivity. Qed.

(** ** The doubling-step search is bounded *)

Section InfSearch.

Variables (f : float -> float) (start : bound) (dir : float) (maxFunEvals : Z).

(** The loop always returns, after at most one probe per iteration. *)
Lemma infSearchLoop_probes (n : nat) :
  forall (step : float) (newStart : bound) (c : Z) (log : list float),
  exists (r : bounds) (probes : list float),
    infSearchLoop n f start dir maxFunEvals step newStart c log
    = (Returned r, log ++ probes)
    /\ List.length probes <= n.
Proof.
  induction n as [|n IH]; intros step newStart c log.
  - cbn [infSearchLoop].
    destruct (dir =? 1); eexists; exists [];
      (split; [unfold ret; rewrite app_nil_r; reflexivity | cbn; lia]).
  - cbn [infSearchLoop].
    destruct ((0 <? maxFunEvals)%Z && (maxFunEvals <? c)%Z).
    + destruct (dir =? 1); eexists; exists [];
        (split; [unfold ret; rewrite app_nil_r; reflexivity | cbn; lia]).
    + unfold bind, call.
      set (newLoc := loc start + step * dir).
      destruct (IsNaN (f newLoc)).
      { destruct (dir =? 1); eexists; exists [newLoc];
          (split; [reflexivity | cbn; lia]). }
      destruct ((f newLoc =? 0) || negb (sameSign (value newStart) (f newLoc))).
      { destruct (dir =? 1); eexists; exists [newLoc];
          (split; [reflexivity | cbn; lia]). }
      destruct (IH (step * 2) (mkBound newLoc (f newLoc)) (GoInt.incr c)
                   (log ++ [newLoc])) as (r & probes & Heq & Hlen).
      exists r, (newLoc :: probes). split.
      * rewrite Heq, <- app_assoc. reflexivity.
      * cbn. lia.
Qed.

Lemma exhausted_run (newStart : bound) (c : Z) (log : list float) :
  (if dir =? 1
   then ret (newStart, mkBound NaN 0, c, Some ErrMaxEval)
   else ret (mkBound NaN 0, newStart, c, Some ErrMaxEval)) log
  = (Returned (exhausted dir newStart c), log).
Proof. unfold exhausted. destruct (dir =? 1); reflexivity. Qed.

(** While no iteration finds a NaN, a zero or a sign change, the loop
    falls through with the running bound: after all its iterations
    when no cap is configured, possibly sooner when one is. *)
Lemma infSearchLoop_exhausts (n : nat) :
  forall (i : nat) (c : Z) (log : list float),
    (forall k, i <= k < i + n -> keepsGoing f start dir k = true) ->
    exists j,
      j <= n
      /\ infSearchLoop n f start dir maxFunEvals
           (stepAt i) (runningAt f start dir i) c log
         = (Returned (exhausted dir (runningAt f start dir (i + j))
                        (Nat.iter j GoInt.incr c)),
            log ++ map (probeAt start dir) (seq i j))
      /\ ((maxFunEvals <= 0)%Z -> j = n).
Proof.
  induction n as [|n IH]; intros i c log Hgo.
  - exists 0%nat. cbn [infSearchLoop].
    rewrite exhausted_run, Nat.add_0_r, app_nil_r. auto.
  - cbn [infSearchLoop].
    destruct ((0 <? maxFunEvals)%Z && (maxFunEvals <? c)%Z) eqn:Hcap.
    + exists 0%nat. rewrite exhausted_run, Nat.add_0_r, app_nil_r.
      repeat split; [lia|].
      apply andb_true_iff in Hcap. destruct Hcap as [Hcap _].
      apply Z.ltb_lt in Hcap. lia.
    + pose proof (Hgo i ltac:(lia)) as Hi.
      unfold keepsGoing in Hi. cbn zeta in Hi.
      apply andb_true_iff in Hi. destruct Hi as [Hnan Hsame].
      apply negb_true_iff in Hnan, Hsame.
      unfold bind, call. fold (probeAt start dir i).
      rewrite Hnan, Hsame.
      destruct (IH (S i) (GoInt.incr c) (log ++ [probeAt start dir i]))
        as (j & Hj & Heq & Hall).
      { intros k Hk. apply Hgo. lia. }
      exists (S j). split; [lia|]. split.
      * change (stepAt i * 2) with (stepAt (S i)).
        change (mkBound (probeAt start dir i) (f (probeAt start dir i)))
          with (runningAt f start dir (S i)).
        rewrite Heq, <- app_assoc, Nat.iter_succ_r.
        replace (i + S j)%nat with (S i + j)%nat by lia. reflexivity.
      * intros H. rewrite (Hall H). reflexivity.
Qed.

End InfSearch.

(** C6: for every objective function, starting bound, direction, count
    and cap (configured or not), [infSearch] returns, having probed at
    most [noRootIter] = 100 locations, one per loop iteration.  When no
    iteration finds a NaN, a zero or a sign change, the search leaves its
    loop after some [j <= 100] iterations with the evaluation-limit
    error and the running bound (the last point probed) on the finite
    side; when no cap is configured ([maxFunEvals <= 0]) it does so after
    exactly 100 iterations. *)
Theorem infSearch_bounded_by_noRootIter :
  forall (f : float -> float) (start : bound) (dir : float)
         (nFunEvals maxFunEvals : Z) (log : list float),
  exists (r : bounds) (probes : list float),
    infSearch f start dir nFunEvals maxFunEvals log = (Returned r, log ++ probes)
    /\ List.length probes <= noRootIter
    /\ (forallb (keepsGoing f start dir) (seq 0 noRootIter) = true ->
        exists j,
          j <= noRootIter
          /\ probes = map (probeAt start dir) (seq 0 j)
          /\ r = exhausted dir (runningAt f start dir j)
                   (Nat.iter j GoInt.incr nFunEvals)
          /\ snd r = Some ErrMaxEval
          /\ ((maxFunEvals <= 0)%Z -> j = noRootIter)).
Proof.
  intros f start dir nFunEvals maxFunEvals log.
  unfold infSearch.
  destruct (infSearchLoop_probes f start dir maxFunEvals noRootIter
              1 start nFunEvals log) as (r & probes & Heq & Hlen).
  exists r, probes. split; [exact Heq|]. split; [exact Hlen|].
  intros Hgo.
  destruct (infSearchLoop_exhausts f start dir maxFunEvals noRootIter
              0 nFunEvals log) as (j & Hj & Hex & Hall).
  { intros k Hk. rewrite forallb_forall in Hgo. apply Hgo.
    apply in_seq. lia. }
  change (stepAt 0) with 1 in Hex.
  change (runningAt f start dir 0) with start in Hex.
  rewrite Heq in Hex. inversion Hex as [[Hr Hp]].
  apply app_inv_head in Hp.
  exists j. repeat split; auto.
  unfold exhausted. destruct (dir =? 1); reflexivity.
Qed.

Lemma infSearch_bounded_by_noRootIter_witness :
  forallb (keepsGoing (fun _ => 1) (mkBound 0 1) 1) (seq 0 noRootIter) = true
  /\ exists (r : bounds) (probes : list float),
       infSearch (fun _ => 1) (mkBound 0 1) 1 0 0 [] = (Returned r, [] ++ probes)
       /\ List.length probes <= noRootIter
       /\ (forallb (keepsGoing (fun _ => 1) (mkBound 0 1) 1) (seq 0 noRootIter)
           = true ->
           exists j,
             j <= noRootIter
             /\ probes = map (probeAt (mkBound 0 1) 1) (seq 0 j)
             /\ r = exhausted 1 (runningAt (fun _ => 1) (mkBound 0 1) 1 j)
                      (Nat.iter j GoInt.incr 0%Z)
             /\ snd r = Some ErrMaxEval
             /\ ((0 <= 0)%Z -> j = noRootIter)).
Proof.
  split.
  - vm_compute. reflexivity.
  - exact (infSearch_bounded_by_noRootIter (fun _ => 1) (mkBound 0 1) 1 0 0 []).
Defined.

(** ** Where the code departs from its documentation *)

(** C1 at a failing input: for [f x = x - 7] on [-3, 7] with the value at
    the max bound known to be [f 7 = 0], the known value is below the
    tolerance 0.5 and [getBoundVals] returns at once with its named
    results still zero; [Find] then returns the location 0 with a nil
    error, although [|f 0| = 7] is not below the tolerance. *)
Theorem Find_success_at_unset_bound :
  linear 7 = 0
  /\ getBoundVals linear (-3) 7 0.5 (Some knownMaxZero) []
     = (Returned (zeroBound, zeroBound, 0%Z, None), [])
  /\ Find linear (-3) 7 0.5 (Some knownMaxZero) [] = (Returned (0, None), [])
  /\ Abs (linear 0) = 7
  /\ (Abs (linear 0) <? 0.5) = false.
Proof. repeat (split; [vm_compute; reflexivity|]). vm_compute; reflexivity. Qed.

(** C3 at failing inputs: the estimate that accompanies a failure is the
    smaller of the two value magnitudes, not a location.  With a NaN at
    the first midpoint of [0, 10] the bounds held are (0, -4) and
    (10, 16) and the estimate returned is 4; with three evaluations
    allowed for [x - 7] on [-3, 10] the bounds held are (3.5, -3.5) and
    (10, 3) and the estimate returned is 3. *)
Theorem Find_failure_estimate_is_a_magnitude :
  Find nanAtFive 0 10 0.5 None [] = (Returned (4, Some ErrNaN), [0; 10; 5])
  /\ getBoundVals nanAtFive 0 10 0.5 None []
     = (Returned (mkBound 0 (-4), mkBound 10 16, 2%Z, None), [0; 10])
  /\ minBoundValue (mkBound 0 (-4)) (mkBound 10 16) = 4
  /\ Find linear (-3) 10 1e-14 (Some threeEvals) []
     = (Returned (3, Some ErrMaxEval), [-3; 10; 3.5; 6.75])
  /\ bisectionState 1 linear 1e-14 3 (mkBound (-3) (-10)) (mkBound 10 3) 2 [-3; 10]
     = Some (mkBound 3.5 (-3.5), mkBound 10 3, 3%Z, [-3; 10; 3.5])
  /\ minBoundValue (mkBound 3.5 (-3.5)) (mkBound 10 3) = 3.
Proof. repeat (split; [vm_compute; reflexivity|]). vm_compute; reflexivity. Qed.

(** C4 at a failing input: for [f x = x + 3] on [-3, 10] with the value at
    the min bound known to be 0, the check under [UseMinValue] reads
    [MaxValue] (left at 0), [getBoundVals] returns with its named results
    still zero, and [Find] returns the location 0 instead of the bound
    -3; no evaluation is made. *)
Theorem Find_known_min_value_returns_zero_location :
  (Abs (MinValue knownMinZero) <? 0.5) = true
  /\ Find shifted (-3) 10 0.5 (Some knownMinZero) [] = (Returned (0, None), [])
  /\ (0 =? -3) = false.
Proof. repeat (split; [vm_compute; reflexivity|]). vm_compute; reflexivity. Qed.

(** C5 at a failing input: a NaN at the min bound of a finite domain is
    not looked at; the function is invoked twice more (at 10 and at 5)
    and the call ends in success at 5. *)
Theorem Find_continues_after_NaN_at_bound :
  IsNaN (nanAtZero 0) = true
  /\ Find nanAtZero 0 10 0.5 None [] = (Returned (5, None), [0; 10; 5]).
Proof. split; vm_compute; reflexivity. Qed.

(** C9 at failing inputs: on a finite domain the two values are returned
    as evaluated, with no test of their signs: for [x * x + 1] on
    [-3, 10] they are 10 and 101, neither below the tolerance 0.5.  On
    the early return for a known value both locations are 0. *)
Theorem getBoundVals_returns_same_sign_bounds :
  getBoundVals parabola (-3) 10 0.5 None []
  = (Returned (mkBound (-3) 10, mkBound 10 101, 2%Z, None), [-3; 10])
  /\ signsOpposite 10 101 = false
  /\ (Abs 10 <? 0.5) = false
  /\ (Abs 101 <? 0.5) = false
  /\ getBoundVals linear (-3) 7 0.5 (Some knownMaxZero) []
     = (Returned (zeroBound, zeroBound, 0%Z, None), [])
  /\ (loc zeroBound <? loc zeroBound) = false.
Proof. repeat (split; [vm_compute; reflexivity|]). vm_compute; reflexivity. Qed.

(** ** Success without settings meets the tolerance *)

Section NilSettings.

Variable f : float -> float.

Lemma bisectionLoop_success (tol : float) (maxFunEvals : Z) (n : nat) :
  forall (minB maxB : bound) (c : Z) (log : list float)
         (x : float) (log' : list float),
    bisectionLoop n f tol maxFunEvals minB maxB c log = (Returned (x, None), log') ->
    (Abs (f x) <? tol) = true.
Proof.
  induction n as [|n IH]; intros minB maxB c log x log' H.
  - cbn in H. discriminate.
  - cbn [bisectionLoop] in H.
    unfold bind at 1, bisectionBody, bind, call, ret in H. cbn zeta in H.
    destruct (IsNaN _); [discriminate|].
    destruct (Abs _ <? tol) eqn:Htol.
    { inversion H; subst. exact Htol. }
    destruct (_ && _)%bool; [discriminate|].
    destruct (sameSign _ _); eapply IH; exact H.
Qed.

Lemma infSearchLoop_evaluated (start : bound) (dir : float) (maxFunEvals : Z)
    (n : nat) :
  forall (step : float) (newStart : bound) (c : Z) (log : list float)
         (a b : bound) (c' : Z) (log' : list float),
    evaluated f newStart ->
    infSearchLoop n f start dir maxFunEvals step newStart c log
    = (Returned (a, b, c', None), log') ->
    evaluated f a /\ evaluated f b.
Proof.
  induction n as [|n IH]; intros step newStart c log a b c' log' Hev H;
    cbn [infSearchLoop] in H.
  - unfold ret in H. destruct (dir =? 1); discriminate.
  - destruct (_ && _)%bool.
    { unfold ret in H. destruct (dir =? 1); discriminate. }
    unfold bind, call, ret in H.
    destruct (IsNaN _).
    { destruct (dir =? 1); discriminate. }
    destruct (_ || _)%bool.
    { destruct (dir =? 1); inversion H; subst; split;
        solve [exact Hev | reflexivity]. }
    eapply IH; [|exact H]. reflexivity.
Qed.

Lemma getBoundsInfinite_nil_evaluated (min max : float) (log : list float)
    (a b : bound) (c : Z) (log' : list float) :
  getBoundsInfinite f min max None log = (Returned (a, b, c, None), log') ->
  evaluated f a /\ evaluated f b.
Proof.
  unfold getBoundsInfinite, infSearch, bind, call, ret, panic.
  destruct (IsInf min (-1)), (IsInf max 1); cbn [negb andb]; intros H.
  - destruct (signsOpposite _ _).
    { inversion H; subst. split; reflexivity. }
    destruct (_ && _)%bool; [destruct (f 0 <? f 1) | destruct (f 1 <? f 0)];
      (eapply infSearchLoop_evaluated; [|exact H]); reflexivity.
  - (eapply infSearchLoop_evaluated; [|exact H]); reflexivity.
  - (eapply infSearchLoop_evaluated; [|exact H]); reflexivity.
  - discriminate.
Qed.

Lemma getBoundVals_nil_evaluated (min max tol : float) (log : list float)
    (a b : bound) (c : Z) (log' : list float) :
  getBoundVals f min max tol None log = (Returned (a, b, c, None), log') ->
  evaluated f a /\ evaluated f b.
Proof.
  unfold getBoundVals.
  destruct (max <=? min); [discriminate|].
  destruct (_ || _)%bool.
  - apply getBoundsInfinite_nil_evaluated.
  - unfold getBoundsFinite, bind, call, ret. intros H.
    inversion H; subst. split; reflexivity.
Qed.

End NilSettings.

(** X1: with no settings, a call of [Find] that returns a nil error returns a
    location at which the magnitude of the function is below the
    tolerance. *)
Theorem Find_nil_settings_success_meets_tolerance :
  forall (f : float -> float) (min max tol : float) (log : list float)
         (x : float) (log' : list float),
    Find f min max tol None log = (Returned (x, None), log') ->
    (Abs (f x) <? tol) = true.
Proof.
  intros f min max tol log x log'.
  unfold Find. unfold bind at 1.
  destruct (getBoundVals f min max tol None log)
    as [[[[[a b] c] [e|]] | msg] l] eqn:Hb; try discriminate.
  apply getBoundVals_nil_evaluated in Hb. destruct Hb as [Ha Hb].
  unfold evaluated in Ha, Hb. unfold ret.
  destruct (Abs (value a) <? tol) eqn:Hta.
  { intros H. inversion H; subst. rewrite <- Ha. exact Hta. }
  destruct (Abs (value b) <? tol) eqn:Htb.
  { intros H. inversion H; subst. rewrite <- Hb. exact Htb. }
  apply bisectionLoop_success.
Qed.

Lemma Find_nil_settings_success_meets_tolerance_witness :
  (Abs (linear 7) <? 1e-14) = true.
Proof.
  apply (Find_nil_settings_success_meets_tolerance linear (Inf (-1)) 9.5 1e-14
           [] 7 [9.5; 8.5; 7.5; 5.5; 6.5; 7]).
  vm_compute. reflexivity.
Defined.

(** ** Every call makes a bounded number of evaluations *)

Section Bounded.

Context {A B : Type}.

Lemma bounded_ret (n : nat) (a : A) : bounded n (ret a).
Proof. intros log. exists []. cbn. rewrite app_nil_r. split; [reflexivity|lia]. Qed.

Lemma bounded_panic (n : nat) (msg : string) : bounded n (@panic A msg).
Proof. intros log. exists []. cbn. rewrite app_nil_r. split; [reflexivity|lia]. Qed.

Lemma bounded_le (n n' : nat) (m : Eval A) :
  n <= n' -> bounded n m -> bounded n' m.
Proof.
  intros Hle Hm log. destruct (Hm log) as (probes & Heq & Hlen).
  exists probes. split; [exact Heq|lia].
Qed.

Lemma bounded_bind (n1 n2 : nat) (m : Eval A) (k : A -> Eval B) :
  bounded n1 m -> (forall a, bounded n2 (k a)) -> bounded (n1 + n2) (bind m k).
Proof.
  intros Hm Hk log. unfold bind.
  destruct (Hm log) as (p1 & Heq1 & Hlen1).
  destruct (m log) as [[a | msg] log1]; cbn [snd] in Heq1; subst log1.
  - destruct (Hk a (log ++ p1)) as (p2 & Heq2 & Hlen2).
    exists (p1 ++ p2). rewrite Heq2, <- app_assoc, length_app.
    split; [reflexivity|lia].
  - exists p1. cbn [snd]. split; [reflexivity|lia].
Qed.

End Bounded.

Lemma bounded_call (f : float -> float) (x : float) : bounded 1 (call f x).
Proof. intros log. exists [x]. cbn. split; [reflexivity|lia]. Qed.

Lemma infSearchLoop_bounded (f : float -> float) (start : bound) (dir : float)
    (maxFunEvals : Z) (n : nat) (step : float) (newStart : bound) (c : Z) :
  bounded n (infSearchLoop n f start dir maxFunEvals step newStart c).
Proof.
  intros log.
  destruct (infSearchLoop_probes f start dir maxFunEvals n step newStart c log)
    as (r & probes & Heq & Hlen).
  exists probes. rewrite Heq. split; [reflexivity|exact Hlen].
Qed.

Lemma bisectionLoop_bounded (f : float -> float) (tol : float) (maxFunEvals : Z)
    (n : nat) :
  forall (minB maxB : bound) (c : Z),
    bounded n (bisectionLoop n f tol maxFunEvals minB maxB c).
Proof.
  induction n as [|n IH]; intros minB maxB c; cbn [bisectionLoop].
  - apply bounded_ret.
  - apply (bounded_bind 1 n).
    + unfold bisectionBody. apply (bounded_bind 1 0); [apply bounded_call|].
      intros v. cbn zeta.
      destruct (IsNaN v); [apply bounded_ret|].
      destruct (Abs v <? tol); [apply bounded_ret|].
      destruct (_ && _)%bool; [apply bounded_ret|].
      destruct (sameSign _ v); apply bounded_ret.
    + intros [res | [[a b] d]]; [apply bounded_ret | apply IH].
Qed.

(** The value at a bound: known from the settings, or one evaluation. *)
Lemma bounded_known_or_call {A : Type} (f : float -> float) (x : float)
    (use : bool) (known : Eval A) (k : float -> Eval A) :
  bounded 0 known -> (forall v, bounded 0 (k v)) ->
  bounded 1 (if use then known else bind (call f x) k).
Proof.
  intros Hknown Hk. destruct use.
  - apply (bounded_le 0); [lia|exact Hknown].
  - apply (bounded_bind 1 0); [apply bounded_call|exact Hk].
Qed.

Lemma getBoundsFinite_bounded (f : float -> float) (min max : float)
    (settings : option Settings) :
  bounded 2 (getBoundsFinite f min max settings).
Proof.
  unfold getBoundsFinite. cbn zeta.
  apply (bounded_bind 1 1).
  - destruct settings as [s|].
    + apply bounded_known_or_call; intros; apply bounded_ret.
    + apply (bounded_bind 1 0); [apply bounded_call|intros; apply bounded_ret].
  - intros [minVal c]. apply (bounded_bind 1 0).
    + destruct settings as [s|].
      * apply bounded_known_or_call; intros; apply bounded_ret.
      * apply (bounded_bind 1 0); [apply bounded_call|intros; apply bounded_ret].
    + intros [maxVal c']. apply bounded_ret.
Qed.

Lemma getBoundsInfinite_bounded (f : float -> float) (min max : float)
    (settings : option Settings) :
  bounded 102 (getBoundsInfinite f min max settings).
Proof.
  assert (Hside : forall (x : float) (use : Settings -> bool)
                         (known : Settings -> float),
             bounded 1
               match settings with
               | Some s =>
                   if use s then ret (with_value (mkBound x 0) (known s))
                   else bind (call f x) (fun v => ret (with_value (mkBound x 0) v))
               | None =>
                   bind (call f x) (fun v => ret (with_value (mkBound x 0) v))
               end).
  { intros x use known. destruct settings as [s|].
    - apply bounded_known_or_call; intros; apply bounded_ret.
    - apply (bounded_bind 1 0); [apply bounded_call|intros; apply bounded_ret]. }
  assert (Hsearch : forall st : bounds + (bound * bound * bool * bool * Z),
             bounded 100
               match st with
               | inl r => ret r
               | inr (minBound, maxBound, minInf, maxInf, nFunEvals) =>
                   let maxEvals :=
                     match settings with Some s => MaxEvals s | None => 0%Z end in
                   if maxInf then infSearch f minBound 1 nFunEvals maxEvals
                   else if minInf then infSearch f maxBound (-1) nFunEvals maxEvals
                   else panic "unreachable"
               end).
  { intros [r | [[[[a b] mi] ma] c]]; [apply bounded_ret|]. cbn zeta.
    destruct ma; [apply infSearchLoop_bounded|].
    destruct mi; [apply infSearchLoop_bounded|apply bounded_panic]. }
  unfold getBoundsInfinite. cbn zeta.
  destruct (IsInf min (-1)), (IsInf max 1); cbn [negb andb].
  - apply (bounded_bind 0 102); [apply bounded_ret|intros minBound].
    apply (bounded_bind 0 102); [apply bounded_ret|intros maxBound].
    apply (bounded_bind 2 100); [|exact Hsearch].
    apply (bounded_bind 1 1); [apply bounded_call|intros zero].
    apply (bounded_bind 1 0); [apply bounded_call|intros one].
    destruct (signsOpposite zero one); [apply bounded_ret|].
    destruct (_ && _)%bool; [destruct (zero <? one) | destruct (one <? zero)];
      apply bounded_ret.
  - apply (bounded_le 101); [lia|].
    apply (bounded_bind 0 101); [apply bounded_ret|intros minBound].
    apply (bounded_bind 1 100); [apply Hside|intros maxBound].
    apply (bounded_bind 0 100); [apply bounded_ret|exact Hsearch].
  - apply (bounded_le 101); [lia|].
    apply (bounded_bind 1 100); [apply Hside|intros minBound].
    apply (bounded_bind 0 100); [apply bounded_ret|intros maxBound].
    apply (bounded_bind 0 100); [apply bounded_ret|exact Hsearch].
  - apply (bounded_bind 1 101); [apply Hside|intros minBound].
    apply (bounded_bind 1 100); [apply Hside|intros maxBound].
    apply (bounded_bind 0 100); [apply bounded_ret|exact Hsearch].
Qed.

Lemma getBoundVals_bounded (f : float -> float) (min max tol : float)
    (settings : option Settings) :
  bounded 102 (getBoundVals f min max tol settings).
Proof.
  unfold getBoundVals.
  destruct (max <=? min); [apply bounded_panic|]. cbn zeta.
  destruct (match settings with Some s => _ | None => _ end);
    [apply bounded_ret|].
  destruct (match settings with Some s => _ | None => _ end);
    [apply bounded_ret|].
  destruct (_ || _)%bool; [apply getBoundsInfinite_bounded|].
  apply (bounded_le 2); [lia|].
  apply (bounded_bind 2 0); [apply getBoundsFinite_bounded|].
  intros [[minVal maxVal] c]. apply bounded_ret.
Qed.

(** X2: whatever the function, domain, tolerance and settings, one call of
    [Find] ends (in a return or in the panic of the domain check) after
    invoking the objective function at most 202 times: at most 102 in the
    bound stage and at most [noRootIter] in [bisection]. *)
Theorem Find_bounded_evaluations :
  forall (f : float -> float) (min max tol : float)
         (settings : option Settings) (log : list float),
  exists (o : outcome (float * option error)) (probes : list float),
    Find f min max tol settings log = (o, log ++ probes)
    /\ List.length probes <= 202.
Proof.
  intros f min max tol settings log.
  assert (H : bounded 202 (Find f min max tol settings)).
  { unfold Find.
    apply (bounded_bind 102 100); [apply getBoundVals_bounded|].
    intros [[[a b] c] [e|]]; [apply bounded_ret|].
    destruct (Abs (value a) <? tol); [apply bounded_ret|].
    destruct (Abs (value b) <? tol); [apply bounded_ret|].
    apply bisectionLoop_bounded. }
  destruct (H log) as (probes & Heq & Hlen).
  exists (fst (Find f min max tol settings log)), probes.
  split; [|exact Hlen].
  rewrite <- Heq. apply surjective_pairing.
Qed.

(** ** A NaN met by the doubling search or by bisection ends the call *)

Section NaNEnds.

Variable f : float -> float.

Lemma nanEnds_nil (e : option error) : nanEnds f [] e.
Proof. intros [|q pre] p post H; discriminate. Qed.

Lemma nanEnds_last_nan (p : float) : nanEnds f [p] (Some ErrNaN).
Proof.
  intros [|q [|q' pre]] x post H Hnan; try discriminate.
  inversion H; subst. auto.
Qed.

Lemma nanEnds_last (p : float) (e : option error) :
  IsNaN (f p) = false -> nanEnds f [p] e.
Proof.
  intros Hp [|q [|q' pre]] x post H Hnan; try discriminate.
  inversion H; subst. congruence.
Qed.

Lemma nanEnds_cons (p : float) (probes : list float) (e : option error) :
  IsNaN (f p) = false -> nanEnds f probes e -> nanEnds f (p :: probes) e.
Proof.
  intros Hp Hrest [|q pre] x post H Hnan.
  - inversion H; subst. congruence.
  - inversion H; subst. eapply Hrest; [reflexivity|exact Hnan].
Qed.

Lemma bisectionLoop_nanEnds (tol : float) (maxFunEvals : Z) (n : nat) :
  forall (minB maxB : bound) (c : Z) (log : list float),
  exists (x : float) (e : option error) (probes : list float),
    bisectionLoop n f tol maxFunEvals minB maxB c log
    = (Returned (x, e), log ++ probes)
    /\ nanEnds f probes e.
Proof.
  induction n as [|n IH]; intros minB maxB c log; cbn [bisectionLoop].
  - do 2 eexists. exists []. unfold ret. rewrite app_nil_r.
    split; [reflexivity|apply nanEnds_nil].
  - unfold bind at 1, bisectionBody, bind, call, ret. cbn zeta.
    set (mid := (loc minB + loc maxB) / 2).
    destruct (IsNaN (f mid)) eqn:Hnan.
    { do 2 eexists. exists [mid]. split; [reflexivity|apply nanEnds_last_nan]. }
    destruct (Abs (f mid) <? tol).
    { do 2 eexists. exists [mid].
      split; [reflexivity|apply nanEnds_last; exact Hnan]. }
    destruct (_ && _)%bool.
    { do 2 eexists. exists [mid].
      split; [reflexivity|apply nanEnds_last; exact Hnan]. }
    destruct (sameSign _ _);
      match goal with
      | |- context [bisectionLoop n f tol maxFunEvals ?a ?b ?d ?l] =>
          destruct (IH a b d l) as (x & e & probes & Heq & Hends)
      end;
      exists x, e, (mid :: probes); rewrite Heq, <- app_assoc;
      (split; [reflexivity|apply nanEnds_cons; assumption]).
Qed.

Lemma infSearchLoop_nanEnds (start : bound) (dir : float) (maxFunEvals : Z)
    (n : nat) :
  forall (step : float) (newStart : bound) (c : Z) (log : list float),
  exists (r : bounds) (probes : list float),
    infSearchLoop n f start dir maxFunEvals step newStart c log
    = (Returned r, log ++ probes)
    /\ nanEnds f probes (snd r).
Proof.
  induction n as [|n IH]; intros step newStart c log; cbn [infSearchLoop].
  - rewrite exhausted_run. eexists. exists []. rewrite app_nil_r.
    split; [reflexivity|apply nanEnds_nil].
  - destruct (_ && _)%bool.
    { rewrite exhausted_run. eexists. exists []. rewrite app_nil_r.
      split; [reflexivity|apply nanEnds_nil]. }
    unfold bind, call, ret.
    set (newLoc := loc start + step * dir).
    destruct (IsNaN (f newLoc)) eqn:Hnan.
    { destruct (dir =? 1); eexists; exists [newLoc];
        (split; [reflexivity|apply nanEnds_last_nan]). }
    destruct (_ || _)%bool.
    { destruct (dir =? 1); eexists; exists [newLoc];
        (split; [reflexivity|apply nanEnds_last; exact Hnan]). }
    destruct (IH (step * 2) (mkBound newLoc (f newLoc)) (GoInt.incr c)
                 (log ++ [newLoc])) as (r & probes & Heq & Hends).
    exists r, (newLoc :: probes). rewrite Heq, <- app_assoc.
    split; [reflexivity|apply nanEnds_cons; assumption].
Qed.

End NaNEnds.

(** X3: [bisection] always returns, and a midpoint at which the function is
    NaN is its last probe: the call then ends with [ErrNaN] and the
    function is not invoked again. *)
Theorem bisection_stops_at_NaN :
  forall (f : float -> float) (minBound maxBound : bound) (tol : float)
         (nFunEvals maxFunEvals : Z) (log : list float),
  exists (x : float) (e : option error) (probes : list float),
    bisection f minBound maxBound tol nFunEvals maxFunEvals log
    = (Returned (x, e), log ++ probes)
    /\ forall (pre : list float) (p : float) (post : list float),
         probes = pre ++ p :: post ->
         IsNaN (f p) = true ->
         post = [] /\ e = Some ErrNaN.
Proof.
  intros f minBound maxBound tol nFunEvals maxFunEvals log.
  apply bisectionLoop_nanEnds.
Qed.

(** X4: [infSearch] always returns, and a location at which the function is
    NaN is its last probe: the search then ends with [ErrNaN] and the
    function is not invoked again. *)
Theorem infSearch_stops_at_NaN :
  forall (f : float -> float) (start : bound) (dir : float)
         (nFunEvals maxFunEvals : Z) (log : list float),
  exists (r : bounds) (probes : list float),
    infSearch f start dir nFunEvals maxFunEvals log = (Returned r, log ++ probes)
    /\ forall (pre : list float) (p : float) (post : list float),
         probes = pre ++ p :: post ->
         IsNaN (f p) = true ->
         post = [] /\ snd r = Some ErrNaN.
Proof.
  intros f start dir nFunEvals maxFunEvals log.
  apply infSearchLoop_nanEnds.
Qed.

(** ** What a successful doubling search returns *)

Lemma infSearchLoop_success (f : float -> float) (start : bound) (dir : float)
    (maxFunEvals : Z) (n : nat) :
  forall (step : float) (newStart : bound) (c : Z) (log : list float)
         (a b : bound) (c' : Z) (log' : list float),
    infSearchLoop n f start dir maxFunEvals step newStart c log
    = (Returned (a, b, c', None), log') ->
    let near := if dir =? 1 then a else b in
    let far := if dir =? 1 then b else a in
    IsNaN (value far) = false
    /\ ((value far =? 0) || negb (sameSign (value near) (value far))) = true.
Proof.
  induction n as [|n IH]; intros step newStart c log a b c' log' H;
    cbn [infSearchLoop] in H.
  - rewrite exhausted_run in H. unfold exhausted in H.
    destruct (dir =? 1); discriminate.
  - destruct (_ && _)%bool.
    { rewrite exhausted_run in H. unfold exhausted in H.
      destruct (dir =? 1); discriminate. }
    unfold bind, call, ret in H.
    destruct (IsNaN _) eqn:Hnan.
    { destruct (dir =? 1); discriminate. }
    destruct (_ || _)%bool eqn:Hstop.
    { cbn zeta. destruct (dir =? 1); inversion H; subst; cbn [value]; auto. }
    eapply IH. exact H.
Qed.

(** X5: when [infSearch] returns a nil error, the bound it found on the
    side that was infinite has a value that is not NaN and that is zero
    or does not share its sign with the value of the bound returned on
    the other side. *)
Theorem infSearch_success_brackets :
  forall (f : float -> float) (start : bound) (dir : float)
         (nFunEvals maxFunEvals : Z) (log : list float)
         (a b : bound) (c : Z) (log' : list float),
    infSearch f start dir nFunEvals maxFunEvals log
    = (Returned (a, b, c, None), log') ->
    let near := if dir =? 1 then a else b in
    let far := if dir =? 1 then b else a in
    IsNaN (value far) = false
    /\ ((value far =? 0) || negb (sameSign (value near) (value far))) = true.
Proof.
  intros f start dir nFunEvals maxFunEvals log a b c log'.
  apply infSearchLoop_success.
Qed.

Lemma infSearch_success_brackets_witness :
  IsNaN (-1.5) = false
  /\ ((-1.5 =? 0) || negb (sameSign 0.5 (-1.5))) = true.
Proof.
  apply (infSearch_success_brackets linear (mkBound 9.5 2.5) (-1) 0 0 []
           (mkBound 5.5 (-1.5)) (mkBound 7.5 0.5) 3 [8.5; 7.5; 5.5]).
  vm_compute. reflexivity.
Defined.

(** ** Reasoning on runs by postconditions *)

Import Post.

Section PostRules.

Context {A B : Type}.

Lemma post_ret (a : A) (Q : A -> list float -> Prop) :
  Q a [] -> post (ret a) Q.
Proof. intros H log. exists []. cbn. rewrite app_nil_r. auto. Qed.

Lemma post_panic (msg : string) (Q : A -> list float -> Prop) :
  post (panic msg) Q.
Proof. intros log. exists []. cbn. rewrite app_nil_r. auto. Qed.

Lemma post_bind (m : Eval A) (k : A -> Eval B)
    (Q1 : A -> list float -> Prop) (Q : B -> list float -> Prop) :
  post m Q1 ->
  (forall a p1, Q1 a p1 -> post (k a) (fun b p2 => Q b (p1 ++ p2))) ->
  post (bind m k) Q.
Proof.
  intros Hm Hk log. unfold bind.
  destruct (Hm log) as (p1 & Heq1 & H1).
  destruct (m log) as [[a | msg] log1]; cbn [fst snd] in *; subst log1.
  - destruct (Hk a p1 H1 (log ++ p1)) as (p2 & Heq2 & H2).
    exists (p1 ++ p2). rewrite Heq2, <- app_assoc. auto.
  - exists p1. auto.
Qed.

Lemma post_weaken (m : Eval A) (Q Q' : A -> list float -> Prop) :
  (forall a p, Q a p -> Q' a p) -> post m Q -> post m Q'.
Proof.
  intros Himp Hm log. destruct (Hm log) as (p & Heq & H).
  exists p. split; [exact Heq|].
  destruct (fst (m log)); auto.
Qed.

(** What a postcondition says of one run that returned. *)
Lemma post_run (m : Eval A) (Q : A -> list float -> Prop)
    (log : list float) (a : A) (log' : list float) :
  post m Q -> m log = (Returned a, log') ->
  exists probes, log' = log ++ probes /\ Q a probes.
Proof.
  intros Hm Hrun. destruct (Hm log) as (p & Heq & H).
  rewrite Hrun in Heq, H. cbn in Heq, H. exists p. auto.
Qed.

End PostRules.

Lemma post_call (f : float -> float) (x : float)
    (Q : float -> list float -> Prop) :
  Q (f x) [x] -> post (call f x) Q.
Proof. intros H log. exists [x]. cbn. auto. Qed.

(** ** Counts, caps and errors of the two loops *)

Lemma incr_no_wrap (c : Z) :
  (0 <= c)%Z -> (c + 1 < 2 ^ 63)%Z -> GoInt.incr c = (c + 1)%Z.
Proof.
  intros H0 H1. unfold GoInt.incr, GoInt.add, GoInt.wrap.
  rewrite Z.mod_small; lia.
Qed.

Lemma infSearchLoop_post (f : float -> float) (start : bound) (dir : float)
    (m : Z) (n : nat) :
  forall (step : float) (newStart : bound) (c : Z),
    (0 <= c)%Z -> (c + Z.of_nat n < 2 ^ 63)%Z ->
    post (infSearchLoop n f start dir m step newStart c)
      (fun r P =>
         loopError (errOf r)
         /\ countOf r = (c + Z.of_nat (List.length P))%Z
         /\ List.length P <= n
         /\ ((0 < m)%Z -> (Z.of_nat (List.length P) <= Z.max 0 (m - c + 1))%Z)).
Proof.
  induction n as [|n IH]; intros step newStart c Hc Hn; cbn [infSearchLoop].
  - destruct (dir =? 1); apply post_ret; unfold loopError; cbn; repeat split;
      auto; lia.
  - destruct ((0 <? m)%Z && (m <? c)%Z) eqn:Hcap.
    { destruct (dir =? 1); apply post_ret; unfold loopError; cbn; repeat split;
        auto; lia. }
    apply (post_bind _ _ (fun v p => p = [loc start + step * dir])).
    { apply post_call. reflexivity. }
    intros v p1 ->. rewrite incr_no_wrap by lia.
    assert (Hle : (0 < m)%Z -> (c <= m)%Z).
    { intros Hm. apply andb_false_iff in Hcap.
      destruct Hcap as [H|H]; [apply Z.ltb_ge in H | apply Z.ltb_ge in H]; lia. }
    destruct (IsNaN v).
    { destruct (dir =? 1); apply post_ret; unfold loopError; cbn;
        repeat split; auto; lia. }
    destruct (_ || _)%bool.
    { destruct (dir =? 1); apply post_ret; unfold loopError; cbn;
        repeat split; auto; lia. }
    eapply post_weaken; [|apply IH; lia].
    intros r P (He & Hcount & Hlen & Hmax). cbn [app List.length].
    repeat split; auto; lia.
Qed.

Lemma bisectionLoop_post (f : float -> float) (tol : float) (m : Z) (n : nat) :
  forall (minB maxB : bound) (c : Z),
    (0 <= c)%Z -> (c + Z.of_nat n < 2 ^ 63)%Z ->
    post (bisectionLoop n f tol m minB maxB c)
      (fun r P =>
         loopError (snd r)
         /\ List.length P <= n
         /\ ((0 < m)%Z -> (Z.of_nat (List.length P) <= Z.max 1 (m - c + 1))%Z)
         /\ (snd r = None ->
             (exists pre, P = pre ++ [fst r])
             /\ (Abs (f (fst r)) <? tol) = true)).
Proof.
  induction n as [|n IH]; intros minB maxB c Hc Hn; cbn [bisectionLoop].
  - apply post_ret. unfold loopError. cbn. repeat split; auto; try lia; intros; discriminate.
  - unfold bisectionBody.
    set (mid := (loc minB + loc maxB) / 2).
    match goal with
    | |- post (bind (bind ?mm ?k1) ?k2) ?Q =>
        assert (Hassoc : forall log, bind (bind mm k1) k2 log
                                     = bind mm (fun v => bind (k1 v) k2) log)
    end.
    { intros log. unfold bind, call. reflexivity. }
    intros log. rewrite Hassoc. revert log.
    apply (post_bind _ _ (fun v p => v = f mid /\ p = [mid])).
    { apply post_call. auto. }
    intros v p1 [-> ->]. cbn zeta. rewrite incr_no_wrap by lia.
    destruct (IsNaN (f mid)).
    { intros log. exists []. unfold bind, ret. cbn. rewrite app_nil_r.
      unfold loopError. repeat split; auto; try lia; intros; discriminate. }
    destruct (Abs (f mid) <? tol) eqn:Htol.
    { intros log. exists []. unfold bind, ret. cbn. rewrite app_nil_r.
      unfold loopError. repeat split; auto; try lia. exists []. reflexivity. }
    destruct ((0 <? m)%Z && (m <? c + 1)%Z) eqn:Hcap.
    { intros log. exists []. unfold bind, ret. cbn. rewrite app_nil_r.
      unfold loopError. repeat split; auto; try lia; intros; discriminate. }
    assert (Hle : (0 < m)%Z -> (c + 1 <= m)%Z).
    { intros Hm. apply andb_false_iff in Hcap.
      destruct Hcap as [H|H]; [apply Z.ltb_ge in H | apply Z.ltb_ge in H]; lia. }
    assert (Hgo : forall a b,
               post (bisectionLoop n f tol m a b (c + 1))
                 (fun r P =>
                    loopError (snd r)
                    /\ List.length ([mid] ++ P) <= S n
                    /\ ((0 < m)%Z ->
                        (Z.of_nat (List.length ([mid] ++ P))
                         <= Z.max 1 (m - c + 1))%Z)
                    /\ (snd r = None ->
                        (exists pre, [mid] ++ P = pre ++ [fst r])
                        /\ (Abs (f (fst r)) <? tol) = true))).
    { intros a b. eapply post_weaken; [|apply IH; lia].
      intros r P (He & Hlen & Hmax & Hok). cbn [app List.length].
      split; [exact He|]. split; [lia|]. split.
      - intros Hm. specialize (Hmax Hm). specialize (Hle Hm). lia.
      - intros Hnone. destruct (Hok Hnone) as [[pre Hpre] Ht].
        split; [|exact Ht]. exists (mid :: pre). rewrite Hpre. reflexivity. }
    destruct (sameSign (value minB) (f mid)); intros log;
      unfold bind at 1, ret; apply Hgo.
Qed.

(** ** The bound stage: what it counts and what it returns *)

Lemma loopError_produced (e : option error) : loopError e -> produced e.
Proof. unfold loopError, produced. intuition. Qed.

Lemma infSearch_stage (f : float -> float) (start : bound) (dir : float)
    (c m : Z) (p1 : list float) :
  (0 <= c <= 2)%Z ->
  (c <= Z.of_nat (List.length p1) <= c + 1)%Z ->
  post (infSearch f start dir c m) (fun r P => boundStage m r (p1 ++ P)).
Proof.
  intros Hc Hp1. unfold infSearch.
  eapply post_weaken; [|apply infSearchLoop_post; unfold noRootIter; lia].
  intros r P (He & Hcount & Hlen & Hcap). unfold noRootIter in Hlen.
  unfold boundStage. split; [apply loopError_produced; exact He|].
  rewrite length_app. repeat split; lia.
Qed.

Lemma side_value_post (f : float -> float) (x : float)
    (settings : option Settings)
    (use : Settings -> bool) (known : Settings -> float) :
  post
    match settings with
    | Some s =>
        if use s then ret (with_value (mkBound x 0) (known s))
        else bind (call f x) (fun v => ret (with_value (mkBound x 0) v))
    | None => bind (call f x) (fun v => ret (with_value (mkBound x 0) v))
    end
    (fun _ p => List.length p <= 1).
Proof.
  assert (Hcall : post (bind (call f x)
                          (fun v => ret (with_value (mkBound x 0) v)))
                    (fun _ p => List.length p <= 1)).
  { apply (post_bind _ _ (fun _ p => List.length p = 1%nat)).
    - apply post_call. reflexivity.
    - intros v p1 Hp. apply post_ret. rewrite app_nil_r. lia. }
  destruct settings as [s|]; [|exact Hcall].
  destruct (use s); [|exact Hcall].
  apply post_ret. cbn. lia.
Qed.

Lemma getBoundsInfinite_stage (f : float -> float) (min max : float)
    (settings : option Settings) :
  post (getBoundsInfinite f min max settings) (boundStage (capOf settings)).
Proof.
  unfold getBoundsInfinite. cbn zeta. fold (capOf settings).
  set (m := capOf settings).
  assert (Hsearch : forall (p1 : list float) (a b : bound) (mi ma : bool) (c : Z),
             (0 <= c <= 2)%Z ->
             (c <= Z.of_nat (List.length p1) <= c + 1)%Z ->
             post (if ma then infSearch f a 1 c m
                   else if mi then infSearch f b (-1) c m
                   else panic "unreachable")
               (fun r P => boundStage m r (p1 ++ P))).
  { intros p1 a b mi ma c Hc Hp1.
    destruct ma; [apply infSearch_stage; assumption|].
    destruct mi; [apply infSearch_stage; assumption|apply post_panic]. }
  destruct (IsInf min (-1)), (IsInf max 1); cbn [negb andb].
  - apply (post_bind _ _ (fun _ p => p = [])); [apply post_ret; reflexivity|].
    intros minBound p0 ->.
    apply (post_bind _ _ (fun _ p => p = [])); [apply post_ret; reflexivity|].
    intros maxBound p0 ->. cbn [app].
    apply (post_bind _ _
             (fun st p =>
                List.length p = 2%nat
                /\ match st with
                   | inl r => countOf r = 2%Z /\ errOf r = None
                   | inr (_, _, _, _, c) => c = 2%Z
                   end)).
    + apply (post_bind _ _ (fun _ p => List.length p = 1%nat));
        [apply post_call; reflexivity|intros zero p1 Hp1].
      apply (post_bind _ _ (fun _ p => List.length p = 1%nat));
        [apply post_call; reflexivity|intros one p2 Hp2].
      assert (Hlen : List.length (p1 ++ p2 ++ []) = 2%nat).
      { rewrite !length_app. cbn. lia. }
      destruct (signsOpposite zero one); [apply post_ret; auto|].
      destruct (_ && _)%bool; [destruct (zero <? one) | destruct (one <? zero)];
        apply post_ret; auto.
    + intros [r | [[[[a b] mi] ma] c]] p [Hp Hst].
      * destruct Hst as [Hc He]. apply post_ret. rewrite app_nil_r.
        unfold boundStage, produced. rewrite He, Hc, Hp.
        repeat split; auto; lia.
      * subst c. apply Hsearch; lia.
  - apply (post_bind _ _ (fun _ p => p = [])); [apply post_ret; reflexivity|].
    intros minBound p0 ->. cbn [app].
    apply (post_bind _ _ (fun _ p => List.length p <= 1));
      [apply side_value_post|intros maxBound p1 Hp1].
    apply (post_bind _ _ (fun st p => p = [] /\ st = inr (minBound, maxBound, true, false, 0%Z)));
      [apply post_ret; auto|intros st p [-> ->]].
    cbn [app].
    apply (Hsearch p1 minBound maxBound true false 0%Z); lia.
  - apply (post_bind _ _ (fun _ p => List.length p <= 1));
      [apply side_value_post|intros minBound p1 Hp1].
    apply (post_bind _ _ (fun _ p => p = [])); [apply post_ret; reflexivity|].
    intros maxBound p0 ->.
    apply (post_bind _ _ (fun st p => p = [] /\ st = inr (minBound, maxBound, false, true, 0%Z)));
      [apply post_ret; auto|intros st p [-> ->]].
    cbn [app].
    apply (Hsearch p1 minBound maxBound false true 0%Z); lia.
  - apply (post_bind _ _ (fun _ _ => True));
      [eapply post_weaken; [|apply side_value_post]; auto|intros minBound p1 _].
    apply (post_bind _ _ (fun _ _ => True));
      [eapply post_weaken; [|apply side_value_post]; auto|intros maxBound p2 _].
    apply (post_bind _ _ (fun st p => st = inr (minBound, maxBound, false, false, 0%Z)));
      [apply post_ret; auto|intros st p ->].
    apply post_panic.
Qed.

Lemma getBoundsFinite_post (f : float -> float) (min max : float)
    (settings : option Settings) :
  post (getBoundsFinite f min max settings)
    (fun r P => snd r = Z.of_nat (List.length P) /\ List.length P <= 2).
Proof.
  unfold getBoundsFinite. cbn zeta.
  assert (Hcall : forall (x : float) (c : Z),
             (0 <= c <= 1)%Z ->
             post (bind (call f x) (fun v => ret (v, GoInt.incr c)))
               (fun r p => snd r = (c + 1)%Z /\ List.length p = 1%nat)).
  { intros x c Hc.
    apply (post_bind _ _ (fun _ p => List.length p = 1%nat)).
    - apply post_call. reflexivity.
    - intros v p1 Hp. apply post_ret. rewrite app_nil_r.
      cbn [snd]. rewrite incr_no_wrap by lia. auto. }
  apply (post_bind _ _
           (fun r p => snd r = Z.of_nat (List.length p) /\ List.length p <= 1)).
  - destruct settings as [s|];
      [destruct (UseMinValue s); [apply post_ret; cbn; split; [reflexivity|lia]|]|];
      (eapply post_weaken; [|apply (Hcall min 0%Z); lia]);
      intros r p [Hr Hp]; rewrite Hr, Hp; cbn; split; lia.
  - intros [minVal c] p1 [Hc Hp1]. cbn [snd] in Hc.
    apply (post_bind _ _
             (fun r p => snd r = (c + Z.of_nat (List.length p))%Z
                         /\ List.length p <= 1)).
    + destruct settings as [s|];
        [destruct (UseMaxValue s); [apply post_ret; cbn; split; lia|]|];
        (eapply post_weaken; [|apply (Hcall max c); lia]);
        intros r p [Hr Hp]; rewrite Hr, Hp; cbn; split; lia.
    + intros [maxVal c'] p2 [Hc' Hp2]. cbn [snd] in Hc'.
      apply post_ret. cbn [snd]. rewrite !length_app. cbn [List.length].
      split; lia.
Qed.

Lemma getBoundVals_stage (f : float -> float) (min max tol : float)
    (settings : option Settings) :
  post (getBoundVals f min max tol settings) (boundStage (capOf settings)).
Proof.
  unfold getBoundVals.
  destruct (max <=? min); [apply post_panic|]. cbn zeta.
  assert (Hcheck : forall (use isInf : bool) (msg : string) (s : Settings)
                          (r : bounds),
             msg = "Using minimum value when minimum bound is infinity"%string
             \/ msg = "Using maximum value when maximum bound is infinity"%string ->
             knownValueCheck use isInf msg s tol = Some r ->
             boundStage (capOf settings) r []).
  { intros use isInf msg s r Hmsg. unfold knownValueCheck.
    destruct use; [|discriminate].
    destruct isInf; [|destruct (_ <? tol); [|discriminate]];
      intros H; inversion H; subst; unfold boundStage, produced;
      cbn; repeat split; try lia; destruct Hmsg as [-> | ->]; auto. }
  assert (Htail : post
                    (if IsInf min (-1) || IsInf max 1
                     then getBoundsInfinite f min max settings
                     else
                       bind (getBoundsFinite f min max settings)
                         (fun x =>
                            match x with
                            | (minVal, maxVal, nFunEvals) =>
                                ret (mkBound min minVal, mkBound max maxVal,
                                     nFunEvals, None)
                            end))
                    (boundStage (capOf settings))).
  { destruct (_ || _)%bool; [apply getBoundsInfinite_stage|].
    apply (post_bind _ _ _ _ (getBoundsFinite_post f min max settings)).
    intros [[minVal maxVal] c] p1 [Hc Hp1]. cbn [snd] in Hc.
    apply post_ret. rewrite app_nil_r. unfold boundStage, produced.
    cbn. repeat split; auto; lia. }
  destruct settings as [s|]; [|exact Htail].
  destruct (knownValueCheck (UseMinValue s) _ _ s tol) as [r|] eqn:Hmin.
  { apply post_ret. eapply Hcheck; [|exact Hmin]. auto. }
  destruct (knownValueCheck (UseMaxValue s) _ _ s tol) as [r|] eqn:Hmax.
  { apply post_ret. eapply Hcheck; [|exact Hmax]. auto. }
  exact Htail.
Qed.

Lemma Find_post (f : float -> float) (min max tol : float)
    (settings : option Settings) :
  post (Find f min max tol settings)
    (fun r P =>
       produced (snd r)
       /\ ((0 < capOf settings)%Z ->
           (Z.of_nat (List.length P) <= capOf settings + 3)%Z)).
Proof.
  unfold Find. fold (capOf settings).
  apply (post_bind _ _ _ _ (getBoundVals_stage f min max tol settings)).
  intros [[[a b] c] e] p1 (He & Hc & Hp1 & Hcap).
  unfold countOf, errOf in *. cbn [fst snd] in *.
  destruct e as [e|].
  { apply post_ret. rewrite app_nil_r. cbn [snd]. split; [exact He|].
    intros Hm. specialize (Hcap Hm). lia. }
  assert (Hret : forall x : float,
             post (ret (x, @None error))
               (fun r p2 =>
                  produced (snd r)
                  /\ ((0 < capOf settings)%Z ->
                      (Z.of_nat (List.length (p1 ++ p2)) <= capOf settings + 3)%Z))).
  { intros x. apply post_ret. rewrite app_nil_r. cbn [snd].
    split; [exact He|]. intros Hm. specialize (Hcap Hm). lia. }
  destruct (Abs (value a) <? tol); [apply Hret|].
  destruct (Abs (value b) <? tol); [apply Hret|].
  replace (match settings with None => 0%Z | Some s => MaxEvals s end)
    with (capOf settings) by (destruct settings; reflexivity).
  unfold bisection.
  eapply post_weaken; [|apply bisectionLoop_post; unfold noRootIter; lia].
  intros r P (Hl & Hlen & Hmax & _). unfold noRootIter in Hlen.
  split; [apply loopError_produced; exact Hl|].
  rewrite length_app. intros Hm. specialize (Hmax Hm). specialize (Hcap Hm). lia.
Qed.

(** X6: whatever the inputs, the error that [Find] returns is nil,
    [ErrMaxEval], [ErrNaN] or one of the two errors for a known value at
    an infinite bound; [ErrNoRoot] is never returned. *)
Theorem Find_never_returns_ErrNoRoot :
  forall (f : float -> float) (min max tol : float)
         (settings : option Settings) (log : list float)
         (x : float) (e : option error) (log' : list float),
    Find f min max tol settings log = (Returned (x, e), log') ->
    e <> Some ErrNoRoot
    /\ (e = None
        \/ e = Some ErrMaxEval
        \/ e = Some ErrNaN
        \/ e = Some (ErrNew "Using minimum value when minimum bound is infinity")
        \/ e = Some (ErrNew "Using maximum value when maximum bound is infinity")).
Proof.
  intros f min max tol settings log x e log' Hrun.
  destruct (post_run _ _ _ _ _ (Find_post f min max tol settings) Hrun)
    as (P & _ & Hp & _).
  cbn [snd] in Hp. split; [|exact Hp].
  unfold produced in Hp. intros ->.
  destruct Hp as [H | [H | [H | [H | H]]]]; discriminate.
Qed.

Lemma Find_never_returns_ErrNoRoot_witness :
  Some ErrNaN <> Some ErrNoRoot
  /\ (Some ErrNaN = None
      \/ Some ErrNaN = Some ErrMaxEval
      \/ Some ErrNaN = Some ErrNaN
      \/ Some ErrNaN
         = Some (ErrNew "Using minimum value when minimum bound is infinity")
      \/ Some ErrNaN
         = Some (ErrNew "Using maximum value when maximum bound is infinity")).
Proof.
  apply (Find_never_returns_ErrNoRoot nanAtFive 0 10 0.5 None []
           4 (Some ErrNaN) [0; 10; 5]).
  vm_compute. reflexivity.
Defined.

(** X7: whenever [getBoundVals] returns, the evaluation count it reports
    is the number of evaluations it made or one less (the evaluation at
    the finite bound of a half-infinite domain is not counted), and it is
    at most 102. *)
Theorem getBoundVals_count_within_one :
  forall (f : float -> float) (min max tol : float)
         (settings : option Settings) (log : list float)
         (minBound maxBound : bound) (nFunEvals : Z) (e : option error)
         (log' : list float),
    getBoundVals f min max tol settings log
    = (Returned (minBound, maxBound, nFunEvals, e), log') ->
    exists probes : list float,
      log' = log ++ probes
      /\ (nFunEvals <= Z.of_nat (List.length probes) <= nFunEvals + 1)%Z
      /\ (0 <= nFunEvals <= 102)%Z.
Proof.
  intros f min max tol settings log a b c e log' Hrun.
  destruct (post_run _ _ _ _ _ (getBoundVals_stage f min max tol settings) Hrun)
    as (P & Hlog & _ & Hc & Hp & _).
  unfold countOf in *. cbn [fst snd] in *.
  exists P. auto.
Qed.

Lemma getBoundVals_count_within_one_witness :
  exists probes : list float,
    [9.5; 8.5; 7.5; 5.5] = [] ++ probes
    /\ (3 <= Z.of_nat (List.length probes) <= 3 + 1)%Z
    /\ (0 <= 3 <= 102)%Z.
Proof.
  apply (getBoundVals_count_within_one linear (Inf (-1)) 9.5 1e-14 None []
           (mkBound 5.5 (-1.5)) (mkBound 7.5 0.5) 3 None [9.5; 8.5; 7.5; 5.5]).
  vm_compute. reflexivity.
Defined.

(** ** The panics marked unreachable are not reached *)

Section Returns.

Context {A B : Type}.

Lemma returns_ret (a : A) : returns (ret a).
Proof. intros log. exists a, log. reflexivity. Qed.

Lemma returns_bind (m : Eval A) (k : A -> Eval B) :
  returns m -> (forall a, returns (k a)) -> returns (bind m k).
Proof.
  intros Hm Hk log. unfold bind.
  destruct (Hm log) as (a & log1 & ->). apply Hk.
Qed.

End Returns.

Lemma returns_call (f : float -> float) (x : float) : returns (call f x).
Proof. intros log. exists (f x), (log ++ [x]). reflexivity. Qed.

Lemma infSearch_returns (f : float -> float) (start : bound) (dir : float)
    (c m : Z) :
  returns (infSearch f start dir c m).
Proof.
  intros log. unfold infSearch.
  destruct (infSearchLoop_probes f start dir m noRootIter 1 start c log)
    as (r & probes & Heq & _).
  exists r, (log ++ probes). exact Heq.
Qed.

Lemma bisection_returns (f : float -> float) (minB maxB : bound) (tol : float)
    (c m : Z) :
  returns (bisection f minB maxB tol c m).
Proof.
  intros log. unfold bisection.
  destruct (bisectionLoop_nanEnds f tol m noRootIter minB maxB c log)
    as (x & e & probes & Heq & _).
  exists (x, e), (log ++ probes). exact Heq.
Qed.

Lemma side_value_returns (f : float -> float) (x : float)
    (settings : option Settings)
    (use : Settings -> bool) (known : Settings -> float) :
  returns
    match settings with
    | Some s =>
        if use s then ret (with_value (mkBound x 0) (known s))
        else bind (call f x) (fun v => ret (with_value (mkBound x 0) v))
    | None => bind (call f x) (fun v => ret (with_value (mkBound x 0) v))
    end.
Proof.
  assert (Hcall : returns (bind (call f x)
                             (fun v => ret (with_value (mkBound x 0) v)))).
  { apply returns_bind; [apply returns_call|intros; apply returns_ret]. }
  destruct settings as [s|]; [destruct (use s)|];
    solve [apply returns_ret | exact Hcall].
Qed.

Lemma getBoundsFinite_returns (f : float -> float) (min max : float)
    (settings : option Settings) :
  returns (getBoundsFinite f min max settings).
Proof.
  unfold getBoundsFinite. cbn zeta.
  assert (Hcall : forall x c,
             returns (bind (call f x) (fun v => ret (v, GoInt.incr c)))).
  { intros. apply returns_bind; [apply returns_call|intros; apply returns_ret]. }
  apply returns_bind.
  - destruct settings as [s|]; [destruct (UseMinValue s)|];
      solve [apply returns_ret | apply Hcall].
  - intros [minVal c]. apply returns_bind.
    + destruct settings as [s|]; [destruct (UseMaxValue s)|];
        solve [apply returns_ret | apply Hcall].
    + intros [maxVal c']. apply returns_ret.
Qed.

Lemma getBoundsInfinite_returns (f : float -> float) (min max : float)
    (settings : option Settings) :
  (IsInf min (-1) || IsInf max 1) = true ->
  returns (getBoundsInfinite f min max settings).
Proof.
  intros Hinf. unfold getBoundsInfinite. cbn zeta.
  destruct (IsInf min (-1)), (IsInf max 1); try discriminate;
    cbn [negb andb].
  - apply returns_bind; [apply returns_ret|intros minBound].
    apply returns_bind; [apply returns_ret|intros maxBound].
    intros log. unfold bind at 1. unfold bind at 1, call.
    unfold bind at 1, call.
    destruct (signsOpposite (f 0) (f 1)); [apply returns_ret|].
    destruct (_ && _)%bool;
      [destruct (f 0 <? f 1) | destruct (f 1 <? f 0)];
      unfold ret; apply infSearch_returns.
  - apply returns_bind; [apply returns_ret|intros minBound].
    apply returns_bind; [apply side_value_returns|intros maxBound].
    intros log. unfold bind, ret. apply infSearch_returns.
  - apply returns_bind; [apply side_value_returns|intros minBound].
    apply returns_bind; [apply returns_ret|intros maxBound].
    intros log. unfold bind, ret. apply infSearch_returns.
Qed.

Lemma getBoundVals_returns (f : float -> float) (min max tol : float)
    (settings : option Settings) :
  (max <=? min) = false ->
  returns (getBoundVals f min max tol settings).
Proof.
  intros Hdom. unfold getBoundVals. rewrite Hdom. cbn zeta.
  assert (Htail : returns
                    (if IsInf min (-1) || IsInf max 1
                     then getBoundsInfinite f min max settings
                     else
                       bind (getBoundsFinite f min max settings)
                         (fun x =>
                            match x with
                            | (minVal, maxVal, nFunEvals) =>
                                ret (mkBound min minVal, mkBound max maxVal,
                                     nFunEvals, None)
                            end))).
  { destruct (_ || _)%bool eqn:Hinf; [apply getBoundsInfinite_returns; exact Hinf|].
    apply returns_bind; [apply getBoundsFinite_returns|].
    intros [[minVal maxVal] c]. apply returns_ret. }
  destruct settings as [s|]; [|exact Htail].
  destruct (knownValueCheck (UseMinValue s) _ _ s tol); [apply returns_ret|].
  destruct (knownValueCheck (UseMaxValue s) _ _ s tol); [apply returns_ret|].
  exact Htail.
Qed.

Lemma Find_returns (f : float -> float) (min max tol : float)
    (settings : option Settings) :
  (max <=? min) = false ->
  returns (Find f min max tol settings).
Proof.
  intros Hdom. unfold Find.
  apply returns_bind; [apply getBoundVals_returns; exact Hdom|].
  intros [[[a b] c] [e|]]; [apply returns_ret|].
  destruct (Abs (value a) <? tol); [apply returns_ret|].
  destruct (Abs (value b) <? tol); [apply returns_ret|].
  apply bisection_returns.
Qed.

(** X8: on every domain that passes the check [min >= max] (a NaN bound
    passes it), [Find] returns a location and an error: neither of the
    two panics marked unreachable is reached, whatever the function and
    the settings. *)
Theorem Find_returns_on_checked_domain :
  forall (f : float -> float) (min max tol : float)
         (settings : option Settings) (log : list float),
    (max <=? min) = false ->
    exists (x : float) (e : option error) (log' : list float),
      Find f min max tol settings log = (Returned (x, e), log').
Proof.
  intros f min max tol settings log Hdom.
  destruct (Find_returns f min max tol settings Hdom log) as ([x e] & log' & H).
  exists x, e, log'. exact H.
Qed.

Lemma Find_returns_on_checked_domain_witness :
  exists (x : float) (e : option error) (log' : list float),
    Find parabola NaN 10 0.5 None [] = (Returned (x, e), log').
Proof.
  apply (Find_returns_on_checked_domain parabola NaN 10 0.5 None []).
  reflexivity.
Defined.

(** X9: with a cap [MaxEvals > 0] in the settings, one call of [Find]
    invokes the objective function at most [MaxEvals + 3] times. *)
Theorem Find_evaluations_under_cap :
  forall (f : float -> float) (min max tol : float)
         (s : Settings) (log : list float),
    (0 < MaxEvals s)%Z ->
    exists (o : outcome (float * option error)) (probes : list float),
      Find f min max tol (Some s) log = (o, log ++ probes)
      /\ (Z.of_nat (List.length probes) <= MaxEvals s + 3)%Z.
Proof.
  intros f min max tol s log Hm.
  destruct (max <=? min) eqn:Hdom.
  - exists (Panicked "minimum less than maximum"), [].
    unfold Find, bind, getBoundVals. rewrite Hdom, app_nil_r.
    split; [reflexivity|cbn; lia].
  - destruct (Find_returns f min max tol (Some s) Hdom log) as (r & log' & Hrun).
    destruct (post_run _ _ _ _ _ (Find_post f min max tol (Some s)) Hrun)
      as (P & -> & _ & Hcap).
    exists (Returned r), P. split; [exact Hrun|].
    apply Hcap. exact Hm.
Qed.

Lemma Find_evaluations_under_cap_witness :
  exists (o : outcome (float * option error)) (probes : list float),
    Find (fun x => x - 2.25) 0.5 (Inf 1) 1e-14 (Some (mkSettings false 0 false 0 1 false 0)) []
    = (o, [] ++ probes)
    /\ (Z.of_nat (List.length probes) <= 1 + 3)%Z.
Proof.
  apply (Find_evaluations_under_cap (fun x => x - 2.25) 0.5 (Inf 1) 1e-14
           (mkSettings false 0 false 0 1 false 0) []).
  reflexivity.
Defined.

(** The bound of X9 is reached: with a cap of one evaluation the call
    below makes four. *)
Example Find_cap_exceeded_by_three :
  Find (fun x => x - 2.25) 0.5 (Inf 1) 1e-14
    (Some (mkSettings false 0 false 0 1 false 0)) []
  = (Returned (0.25, Some ErrMaxEval), [0.5; 1.5; 2.5; 2]).
Proof. vm_compute. reflexivity. Qed.

(** ** The trace of the doubling search *)

Section InfSearchTrace.

Variables (f : float -> float) (start : bound) (dir : float) (m : Z).

Lemma exhausted_count (b : bound) (c : Z) : countOf (exhausted dir b c) = c.
Proof. unfold exhausted. destruct (dir =? 1); reflexivity. Qed.

Lemma exhausted_err (b : bound) (c : Z) :
  errOf (exhausted dir b c) = Some ErrMaxEval.
Proof. unfold exhausted. destruct (dir =? 1); reflexivity. Qed.

Lemma infSearchLoop_trace (n : nat) :
  forall (i : nat) (c : Z) (log : list float),
  exists (j : nat) (r : bounds),
    j <= n
    /\ infSearchLoop n f start dir m (stepAt i) (runningAt f start dir i) c log
       = (Returned r, log ++ map (probeAt start dir) (seq i j))
    /\ countOf r = Nat.iter j GoInt.incr c
    /\ (forall k, i <= k -> S k < i + j -> keepsGoing f start dir k = true)
    /\ (errOf r = None ->
        exists k, (i + j)%nat = S k
          /\ IsNaN (f (probeAt start dir k)) = false
          /\ keepsGoing f start dir k = false
          /\ nearFar dir r
             = (runningAt f start dir k,
                mkBound (probeAt start dir k) (f (probeAt start dir k)))).
Proof.
  induction n as [|n IH]; intros i c log; cbn [infSearchLoop].
  - exists 0%nat. eexists. rewrite exhausted_run, app_nil_r.
    split; [lia|]. split; [reflexivity|]. split; [apply exhausted_count|].
    split; [intros; lia|].
    rewrite exhausted_err. discriminate.
  - destruct ((0 <? m)%Z && (m <? c)%Z).
    { exists 0%nat. eexists. rewrite exhausted_run, app_nil_r.
      split; [lia|]. split; [reflexivity|]. split; [apply exhausted_count|].
      split; [intros; lia|].
      rewrite exhausted_err. discriminate. }
    unfold bind, call. fold (probeAt start dir i).
    set (v := f (probeAt start dir i)).
    assert (Hone : seq i 1 = [i]) by reflexivity.
    destruct (IsNaN v) eqn:Hnan.
    { exists 1%nat. eexists. split; [lia|]. split.
      - destruct (dir =? 1) eqn:Hd; unfold ret; rewrite Hone; cbn [map].
        + instantiate (1 := if dir =? 1
                            then (runningAt f start dir i, mkBound NaN 0,
                                  GoInt.incr c, Some ErrNaN)
                            else (mkBound NaN 0, runningAt f start dir i,
                                  GoInt.incr c, Some ErrNaN)).
          rewrite Hd. reflexivity.
        + rewrite Hd. reflexivity.
      - split; [destruct (dir =? 1); reflexivity|].
        split; [intros; lia|].
        unfold errOf. destruct (dir =? 1); discriminate. }
    destruct ((v =? 0) || negb (sameSign (value (runningAt f start dir i)) v))
      eqn:Hstop.
    { exists 1%nat. eexists. split; [lia|]. split.
      - destruct (dir =? 1) eqn:Hd; unfold ret; rewrite Hone; cbn [map].
        + instantiate (1 := if dir =? 1
                            then (runningAt f start dir i,
                                  mkBound (probeAt start dir i) v,
                                  GoInt.incr c, None)
                            else (mkBound (probeAt start dir i) v,
                                  runningAt f start dir i,
                                  GoInt.incr c, None)).
          rewrite Hd. reflexivity.
        + rewrite Hd. reflexivity.
      - split; [destruct (dir =? 1); reflexivity|].
        split; [intros; lia|].
        intros _. exists i. split; [lia|]. split; [exact Hnan|]. split.
        + unfold keepsGoing. cbn zeta. fold v. rewrite Hnan, Hstop. reflexivity.
        + unfold nearFar, minOf, maxOf. destruct (dir =? 1); reflexivity. }
    change (stepAt i * 2) with (stepAt (S i)).
    change (mkBound (probeAt start dir i) v) with (runningAt f start dir (S i)).
    destruct (IH (S i) (GoInt.incr c) (log ++ [probeAt start dir i]))
      as (j & r & Hj & Heq & Hcount & Hgo & Hok).
    exists (S j), r. split; [lia|]. split.
    { rewrite Heq, <- app_assoc. reflexivity. }
    split; [rewrite Hcount, Nat.iter_succ_r; reflexivity|].
    split.
    + intros k Hk1 Hk2. destruct (Nat.eq_dec k i) as [-> | Hne].
      * unfold keepsGoing. cbn zeta. fold v. rewrite Hnan, Hstop. reflexivity.
      * apply Hgo; lia.
    + intros He. destruct (Hok He) as (k & Hk & H).
      exists k. split; [lia|exact H].
Qed.

End InfSearchTrace.

(** X10: [infSearch] probes the locations [start.loc + step * dir] for the
    steps 1, 2, 4, ... in this order, without a gap, at most [noRootIter]
    of them, and counts one evaluation for each.  Every probe but the
    last found neither a NaN, nor a zero, nor a sign change.  When the
    error is nil the last probe did (and was not NaN): the bound on the
    side of the search is that probe with its value, and the other bound
    is the running bound, the point probed just before it (or [start]). *)
Theorem infSearch_probes_double :
  forall (f : float -> float) (start : bound) (dir : float)
         (nFunEvals maxFunEvals : Z) (log : list float),
  exists (j : nat) (r : bounds),
    j <= noRootIter
    /\ infSearch f start dir nFunEvals maxFunEvals log
       = (Returned r, log ++ map (probeAt start dir) (seq 0 j))
    /\ countOf r = Nat.iter j GoInt.incr nFunEvals
    /\ (forall k, S k < j -> keepsGoing f start dir k = true)
    /\ (errOf r = None ->
        exists k, j = S k
          /\ IsNaN (f (probeAt start dir k)) = false
          /\ keepsGoing f start dir k = false
          /\ nearFar dir r
             = (runningAt f start dir k,
                mkBound (probeAt start dir k) (f (probeAt start dir k)))).
Proof.
  intros f start dir nFunEvals maxFunEvals log.
  destruct (infSearchLoop_trace f start dir maxFunEvals noRootIter
              0 nFunEvals log) as (j & r & Hj & Heq & Hcount & Hgo & Hok).
  exists j, r. split; [exact Hj|]. split; [exact Heq|].
  split; [exact Hcount|]. split.
  - intros k Hk. apply Hgo; lia.
  - intros He. destruct (Hok He) as (k & Hk & H). exists k. split; [lia|exact H].
Qed.

(** ** A success of bisection *)

Lemma bisectionLoop_last_probe (f : float -> float) (tol : float) (m : Z)
    (n : nat) :
  forall (minB maxB : bound) (c : Z) (log : list float)
         (x : float) (log' : list float),
    bisectionLoop n f tol m minB maxB c log = (Returned (x, None), log') ->
    exists pre : list float, log' = log ++ pre ++ [x].
Proof.
  induction n as [|n IH]; intros minB maxB c log x log' H.
  - cbn in H. discriminate.
  - cbn [bisectionLoop] in H.
    unfold bind at 1, bisectionBody, bind, call, ret in H. cbn zeta in H.
    destruct (IsNaN _); [discriminate|].
    destruct (Abs _ <? tol).
    { inversion H; subst. exists []. reflexivity. }
    destruct (_ && _)%bool; [discriminate|].
    destruct (sameSign _ _); apply IH in H; destruct H as [pre ->];
      eexists (_ :: pre); rewrite <- app_assoc; reflexivity.
Qed.

(** X11: whatever the bracket, the counts and the cap, when [bisection]
    returns a nil error the location it returns is the last point it
    probed, a midpoint of the bracket held then, and the magnitude of the
    function there is below the tolerance. *)
Theorem bisection_success_is_last_probe :
  forall (f : float -> float) (minBound maxBound : bound) (tol : float)
         (nFunEvals maxFunEvals : Z) (log : list float)
         (x : float) (log' : list float),
    bisection f minBound maxBound tol nFunEvals maxFunEvals log
    = (Returned (x, None), log') ->
    (exists pre : list float, log' = log ++ pre ++ [x])
    /\ (Abs (f x) <? tol) = true.
Proof.
  intros f minBound maxBound tol nFunEvals maxFunEvals log x log' H.
  unfold bisection in H. split.
  - eapply bisectionLoop_last_probe. exact H.
  - eapply bisectionLoop_success. exact H.
Qed.

Lemma bisection_success_is_last_probe_witness :
  (exists pre : list float, [5.5; 7.5; 6.5; 7] = [5.5; 7.5] ++ pre ++ [7])
  /\ (Abs (linear 7) <? 1e-14) = true.
Proof.
  apply (bisection_success_is_last_probe linear
           (mkBound 5.5 (-1.5)) (mkBound 7.5 0.5) 1e-14 3 0 [5.5; 7.5]
           7 [5.5; 7.5; 6.5; 7]).
  vm_compute. reflexivity.
Defined.

(** ** Known values in the settings *)



(** X13: on a finite domain that passes the check, with a known value at
    the min bound whose magnitude is below the tolerance, [Find] returns
    the min bound with a nil error provided the magnitude of [MaxValue]
    is not below the tolerance; the function is then evaluated once, at
    the max bound, unless the value there is known too. *)
Theorem Find_known_min_value_below_tolerance :
  forall (f : float -> float) (min max tol : float)
         (s : Settings) (log : list float),
    (max <=? min) = false ->
    IsInf min (-1) = false ->
    IsInf max 1 = false ->
    UseMinValue s = true ->
    (Abs (MinValue s) <? tol) = true ->
    (Abs (MaxValue s) <? tol) = false ->
    Find f min max tol (Some s) log
    = (Returned (min, None), log ++ (if UseMaxValue s then [] else [max])).
Proof.
  intros f min max tol s log Hdom Hmin Hmax Huse Hlow Hhigh.
  unfold Find, bind, getBoundVals, knownValueCheck, getBoundsFinite,
    bind, call, ret.
  rewrite Hdom, Hmin, Hmax, Huse, Hhigh. cbn [orb].
  destruct (UseMaxValue s); cbn [value loc]; rewrite Hlow;
    rewrite ?app_nil_r; reflexivity.
Qed.

Lemma Find_known_min_value_below_tolerance_witness :
  Find shifted (-3) 10 0.5 (Some (mkSettings true 0 true 13 0 false 0)) []
  = (Returned (-3, None), [] ++ []).
Proof.
  apply (Find_known_min_value_below_tolerance shifted (-3) 10 0.5
           (mkSettings true 0 true 13 0 false 0) []);
    reflexivity.
Defined.

(** ** Magnitudes and the order of binary64 values *)

Lemma SFcompare_refl (x : spec_float) :
  x <> S754_nan -> SFcompare x x = Some Eq.
Proof.
  destruct x as [s|s| |s m e]; intros H; cbn.
  - reflexivity.
  - destruct s; reflexivity.
  - congruence.
  - rewrite Z.compare_refl, Pos.compare_cont_refl. destruct s; reflexivity.
Qed.

Lemma IsNaN_spec (v : float) : IsNaN v = false <-> Prim2SF v <> S754_nan.
Proof.
  unfold IsNaN. rewrite FloatAxioms.eqb_spec. unfold SFeqb. split.
  - intros H E. rewrite E in H. discriminate.
  - intros H. rewrite SFcompare_refl by exact H. reflexivity.
Qed.

Lemma signed_not_nan_nor_zero (a : float) :
  (0 <? a) = true \/ (a <? 0) = true ->
  IsNaN a = false /\ (a =? 0) = false.
Proof.
  intros H. split.
  - apply IsNaN_spec. intros E. revert H. rewrite !ltb_spec, E. cbn.
    intros [H|H]; discriminate.
  - revert H. rewrite !ltb_spec, FloatAxioms.eqb_spec, Prim2SF_zero.
    destruct (Prim2SF a) as [s|s| |s m e]; unfold SFltb, SFeqb; cbn;
      try (intros [H|H]; discriminate); destruct s; reflexivity.
Qed.

Lemma Abs_not_NaN (v : float) : IsNaN v = false -> IsNaN (Abs v) = false.
Proof.
  rewrite !IsNaN_spec. unfold Abs. rewrite abs_spec.
  destruct (Prim2SF v); cbn; congruence.
Qed.

Lemma Abs_not_neg (v : float) : (Abs v <? 0) = false.
Proof.
  unfold Abs. rewrite ltb_spec, abs_spec, Prim2SF_zero.
  destruct (Prim2SF v); reflexivity.
Qed.

Lemma Abs_not_neg_inf (v : float) : IsInf (Abs v) (-1) = false.
Proof.
  unfold IsInf, Abs. cbn [Z.leb andb orb].
  change ((0 <=? -1)%Z) with false. cbn [andb orb].
  rewrite ltb_spec, abs_spec.
  change (Prim2SF (- MaxFloat64)) with (S754_finite true 9007199254740991 971).
  destruct (Prim2SF v); reflexivity.
Qed.

Lemma Abs_zero (v : float) : (Abs v =? 0) = true -> Abs v = 0.
Proof.
  unfold Abs. rewrite FloatAxioms.eqb_spec, Prim2SF_zero. intros H.
  apply Prim2SF_inj. rewrite Prim2SF_zero. revert H. rewrite abs_spec.
  destruct (Prim2SF v) as [s|s| |s m e]; unfold SFeqb; cbn;
    try discriminate; reflexivity.
Qed.

Lemma Abs_zero' (v : float) : (0 =? Abs v) = true -> Abs v = 0.
Proof.
  unfold Abs. rewrite FloatAxioms.eqb_spec, Prim2SF_zero. intros H.
  apply Prim2SF_inj. rewrite Prim2SF_zero. revert H. rewrite abs_spec.
  destruct (Prim2SF v) as [s|s| |s m e]; unfold SFeqb; cbn;
    try discriminate; reflexivity.
Qed.

Lemma Abs_pos (v : float) :
  IsNaN v = false -> (0 =? Abs v) = false -> (0 <? Abs v) = true.
Proof.
  rewrite IsNaN_spec. unfold Abs.
  rewrite FloatAxioms.eqb_spec, ltb_spec, Prim2SF_zero, abs_spec.
  destruct (Prim2SF v) as [s|s| |s m e]; unfold SFeqb, SFltb; cbn;
    try congruence.
Qed.

Lemma Min_Abs_zero (v : float) :
  IsNaN v = false -> Min (Abs v) (Abs 0) = 0 /\ Min (Abs 0) (Abs v) = 0.
Proof.
  intros Hv. change (Abs 0) with 0. unfold Min.
  rewrite Abs_not_neg_inf, (Abs_not_NaN _ Hv).
  change (IsInf 0 (-1)) with false. change (IsNaN 0) with false.
  cbn [orb]. rewrite andb_diag. change (0 =? 0) with true. cbn [andb].
  change (Signbit 0) with false. cbv iota.
  split.
  - destruct (Abs v =? 0) eqn:E.
    + rewrite (Abs_zero _ E). reflexivity.
    + rewrite Abs_not_neg. reflexivity.
  - destruct (0 =? Abs v) eqn:E.
    + apply Abs_zero'. exact E.
    + rewrite (Abs_pos _ Hv E). reflexivity.
Qed.

Lemma SFcompare_antisym (x y : spec_float) :
  SFcompare y x = option_map CompOpp (SFcompare x y).
Proof.
  destruct x as [s1|s1| |s1 m1 e1], y as [s2|s2| |s2 m2 e2]; cbn;
    try reflexivity;
    try (destruct s1; reflexivity);
    try (destruct s2; reflexivity);
    try (destruct s1, s2; reflexivity).
  rewrite (Z.compare_antisym e1 e2).
  destruct s1, s2; cbn; try reflexivity;
    destruct (e1 ?= e2)%Z; cbn; try reflexivity;
    rewrite (ZC4 m2 m1);
    destruct (Pos.compare_cont Eq m1 m2); reflexivity.
Qed.

Lemma not_lt_le (x y : float) :
  IsNaN x = false -> IsNaN y = false -> (x <? y) = false -> (y <=? x) = true.
Proof.
  rewrite !IsNaN_spec, ltb_spec, leb_spec. unfold SFltb, SFleb.
  rewrite (SFcompare_antisym (Prim2SF x) (Prim2SF y)). intros Hx Hy.
  destruct (SFcompare (Prim2SF x) (Prim2SF y)) as [[ | | ]|] eqn:E; cbn;
    try congruence.
  destruct (Prim2SF x), (Prim2SF y); cbn in E; congruence.
Qed.

Lemma leb_refl (x : float) : IsNaN x = false -> (x <=? x) = true.
Proof.
  rewrite IsNaN_spec, leb_spec. unfold SFleb. intros H.
  rewrite SFcompare_refl by exact H. reflexivity.
Qed.

Lemma eqb_leb (x y : float) :
  (x =? y) = true -> (x <=? y) = true /\ (y <=? x) = true.
Proof.
  rewrite FloatAxioms.eqb_spec, !leb_spec. unfold SFeqb, SFleb.
  rewrite (SFcompare_antisym (Prim2SF x) (Prim2SF y)).
  destruct (SFcompare (Prim2SF x) (Prim2SF y)) as [[ | | ]|]; cbn;
    intros H; try discriminate. auto.
Qed.

Lemma ltb_leb (x y : float) : (x <? y) = true -> (x <=? y) = true.
Proof.
  rewrite ltb_spec, leb_spec. unfold SFltb, SFleb.
  destruct (SFcompare (Prim2SF x) (Prim2SF y)) as [[ | | ]|]; cbn;
    intros H; try discriminate. reflexivity.
Qed.

Lemma Abs_NaN (v : float) : IsNaN v = true -> IsNaN (Abs v) = true.
Proof.
  intros H. destruct (IsNaN (Abs v)) eqn:E; [reflexivity|].
  apply IsNaN_spec in E. unfold Abs in E. rewrite abs_spec in E.
  assert (Hv : Prim2SF v = S754_nan).
  { destruct (Prim2SF v) eqn:Ev; try reflexivity;
      assert (Hn : IsNaN v = false) by (apply IsNaN_spec; rewrite Ev; discriminate);
      congruence. }
  rewrite Hv in E. cbn in E. congruence.
Qed.

(** X14: the estimate [minBoundValue] is the smaller of the two value
    magnitudes: when neither value is NaN it is one of the two
    magnitudes and it is no larger than either; when a value is NaN it
    is NaN. *)
Theorem minBoundValue_smaller_magnitude :
  forall a b : bound,
    (IsNaN (value a) = false -> IsNaN (value b) = false ->
     (minBoundValue a b = Abs (value a) \/ minBoundValue a b = Abs (value b))
     /\ (minBoundValue a b <=? Abs (value a)) = true
     /\ (minBoundValue a b <=? Abs (value b)) = true)
    /\ (IsNaN (value a) || IsNaN (value b) = true ->
        IsNaN (minBoundValue a b) = true).
Proof.
  intros a b. unfold minBoundValue. cbn zeta.
  set (x := Abs (value a)). set (y := Abs (value b)).
  assert (Hix : IsInf x (-1) = false) by apply Abs_not_neg_inf.
  assert (Hiy : IsInf y (-1) = false) by apply Abs_not_neg_inf.
  unfold Min. rewrite Hix, Hiy. cbn [orb].
  split.
  - intros Ha Hb.
    pose proof (Abs_not_NaN _ Ha) as Hx. pose proof (Abs_not_NaN _ Hb) as Hy.
    fold x in Hx. fold y in Hy. rewrite Hx, Hy. cbn [orb].
    destruct ((x =? 0) && (x =? y)) eqn:Hzero.
    + apply andb_true_iff in Hzero. destruct Hzero as [_ Hxy].
      destruct (eqb_leb _ _ Hxy) as [Hle1 Hle2].
      destruct (Signbit x); repeat split; auto using leb_refl.
    + destruct (x <? y) eqn:Hlt.
      * repeat split; auto using leb_refl, ltb_leb.
      * repeat split; auto using leb_refl, not_lt_le.
  - intros Hnan.
    assert (H : IsNaN x || IsNaN y = true).
    { apply orb_true_iff in Hnan. apply orb_true_iff.
      destruct Hnan as [H|H]; [left|right]; apply Abs_NaN; exact H. }
    rewrite H. reflexivity.
Qed.

Lemma minBoundValue_smaller_magnitude_witness :
  (minBoundValue (mkBound 3.5 (-3.5)) (mkBound 10 3) = Abs (-3.5)
   \/ minBoundValue (mkBound 3.5 (-3.5)) (mkBound 10 3) = Abs 3)
  /\ (minBoundValue (mkBound 3.5 (-3.5)) (mkBound 10 3) <=? Abs (-3.5)) = true
  /\ (minBoundValue (mkBound 3.5 (-3.5)) (mkBound 10 3) <=? Abs 3) = true.
Proof.
  apply (minBoundValue_smaller_magnitude (mkBound 3.5 (-3.5)) (mkBound 10 3));
    reflexivity.
Defined.

(** ** The estimate after a failed doubling search *)

Lemma infSearchLoop_failure_estimate (f : float -> float) (start : bound)
    (dir : float) (m : Z) (n : nat) :
  forall (step : float) (newStart : bound) (c : Z) (log : list float)
         (a b : bound) (c' : Z) (e : error) (log' : list float),
    IsNaN (value newStart) = false ->
    infSearchLoop n f start dir m step newStart c log
    = (Returned (a, b, c', Some e), log') ->
    minBoundValue a b = 0.
Proof.
  assert (Hfail : forall (newStart : bound) (c : Z) (err : error)
                         (log : list float) (a b : bound) (c' : Z) (e : error)
                         (log' : list float),
             IsNaN (value newStart) = false ->
             (if dir =? 1
              then ret (newStart, mkBound NaN 0, c, Some err)
              else ret (mkBound NaN 0, newStart, c, Some err)) log
             = (Returned (a, b, c', Some e), log') ->
             minBoundValue a b = 0).
  { intros newStart c err log a b c' e log' Hv H. unfold ret in H.
    destruct (dir =? 1); inversion H; subst; unfold minBoundValue;
      cbn [value]; apply (Min_Abs_zero _ Hv). }
  induction n as [|n IH];
    intros step newStart c log a b c' e log' Hv H; cbn [infSearchLoop] in H.
  - eapply Hfail; eassumption.
  - destruct (_ && _)%bool; [eapply Hfail; eassumption|].
    unfold bind, call in H.
    destruct (IsNaN (f _)) eqn:Hnan; [eapply Hfail; eassumption|].
    destruct (_ || _)%bool.
    { unfold ret in H. destruct (dir =? 1); discriminate. }
    eapply IH; [|exact H]. exact Hnan.
Qed.

(** X15: when [infSearch] fails (with [ErrNaN] or [ErrMaxEval]) from a
    starting bound whose value is not NaN, the estimate that [Find]
    computes from the two bounds it returns, [minBoundValue], is 0: the
    bound standing for the side not found has the value 0. *)
Theorem infSearch_failure_estimate_is_zero :
  forall (f : float -> float) (start : bound) (dir : float)
         (nFunEvals maxFunEvals : Z) (log : list float)
         (a b : bound) (c : Z) (e : error) (log' : list float),
    IsNaN (value start) = false ->
    infSearch f start dir nFunEvals maxFunEvals log
    = (Returned (a, b, c, Some e), log') ->
    minBoundValue a b = 0.
Proof.
  intros f start dir nFunEvals maxFunEvals log a b c e log' Hv H.
  eapply infSearchLoop_failure_estimate; eassumption.
Qed.

Lemma infSearch_failure_estimate_is_zero_witness :
  minBoundValue (mkBound 2 1) (mkBound NaN 0) = 0.
Proof.
  apply (infSearch_failure_estimate_is_zero (fun _ => 1) (mkBound 0 1) 1 0 1 []
           (mkBound 2 1) (mkBound NaN 0) 2 ErrMaxEval [1; 2]).
  - reflexivity.
  - vm_compute. reflexivity.
Defined.

(** ** The sign tests *)

(** X16: [sameSign] holds only between two values that are neither zero
    nor NaN; on them it is symmetric and transitive, and it never holds
    together with [signsOpposite]. *)
Theorem sameSign_partial_equivalence :
  forall a b c : float,
    sameSign a b = sameSign b a
    /\ (sameSign a b = true -> sameSign b c = true -> sameSign a c = true)
    /\ (sameSign a b = true ->
        IsNaN a = false /\ (a =? 0) = false
        /\ IsNaN b = false /\ (b =? 0) = false
        /\ signsOpposite a b = false).
Proof.
  intros a b c.
  pose proof (pos_not_neg a) as Pa. pose proof (pos_not_neg b) as Pb.
  pose proof (pos_not_neg c) as Pc.
  pose proof (signed_not_nan_nor_zero a) as Sa.
  pose proof (signed_not_nan_nor_zero b) as Sb.
  unfold sameSign, signsOpposite.
  destruct (0 <? a), (a <? 0), (0 <? b), (b <? 0), (0 <? c), (c <? 0);
    cbn; repeat split; intros; try discriminate; try reflexivity;
    try (specialize (Pa eq_refl); discriminate);
    try (specialize (Pb eq_refl); discriminate);
    try (specialize (Pc eq_refl); discriminate);
    try (apply Sa; auto); try (apply Sb; auto).
Qed.

(** ** The Newton iteration takes one step *)

Lemma ComputeLoop_one_step (Tolerance : float -> float -> float -> bool)
    (n : NewtonMethod.Newton) (p0 : float) (k : nat) :
  forall p : float,
    NewtonMethod.ComputeLoop Tolerance k n p0 p
    = match k with
      | O => p
      | S _ =>
          p0 - NewtonMethod.Function (NewtonMethod.fn n) p0
               / NewtonMethod.Diff (NewtonMethod.fn n) p0
      end.
Proof.
  induction k as [|k IH]; intros p; cbn [NewtonMethod.ComputeLoop].
  - reflexivity.
  - cbn zeta. destruct (Tolerance _ _ _); [reflexivity|].
    rewrite IH. destruct k; reflexivity.
Qed.

(** X17: whatever the tolerance test and however many iterations are
    allowed, [Compute] returns the starting point when [Max_Iter <= 0]
    and otherwise the result of a single Newton step from the starting
    point, [x0 - f(x0)/f'(x0)]: the point the step is taken from is never
    advanced inside the loop. *)
Theorem Newton_Compute_is_one_step :
  forall (Tolerance : float -> float -> float -> bool)
         (n : NewtonMethod.Newton) (x0 : float),
    NewtonMethod.Compute Tolerance n x0
    = if (0 <? NewtonMethod.Max_Iter n)%Z
      then x0 - NewtonMethod.Function (NewtonMethod.fn n) x0
                / NewtonMethod.Diff (NewtonMethod.fn n) x0
      else x0.
Proof.
  intros Tolerance n x0. unfold NewtonMethod.Compute. cbn zeta.
  rewrite ComputeLoop_one_step.
  destruct (0 <? NewtonMethod.Max_Iter n)%Z eqn:Hpos.
  - apply Z.ltb_lt in Hpos.
    destruct (Z.to_nat (NewtonMethod.Max_Iter n)) eqn:Hk; [lia|reflexivity].
  - apply Z.ltb_ge in Hpos.
    replace (Z.to_nat (NewtonMethod.Max_Iter n)) with 0%nat by lia.
    reflexivity.
Qed.

(** For [x * x - 2] from 1, a hundred iterations allowed and a test that
    never accepts, the result is 1.5, the first Newton iterate. *)
Example Newton_Compute_sqrt_two :
  NewtonMethod.Compute (fun _ _ _ => false)
    (NewtonMethod.mkNewton 100 1e-14
       (NewtonMethod.mkFuncDiffer (fun x => x * x - 2) (fun x => 2 * x)))
    1
  = 1.5.
Proof. vm_compute. reflexivity. Qed.

(** ** A cap that is not positive is no cap *)

Lemma infSearchLoop_no_cap (f : float -> float) (start : bound) (dir : float)
    (m : Z) (n : nat) :
  (m <= 0)%Z ->
  forall (step : float) (newStart : bound) (c : Z) (log : list float),
    infSearchLoop n f start dir m step newStart c log
    = infSearchLoop n f start dir 0 step newStart c log.
Proof.
  intros Hm. assert (Hz : (0 <? m)%Z = false) by (apply Z.ltb_ge; exact Hm).
  induction n as [|n IH]; intros step newStart c log; cbn [infSearchLoop].
  - reflexivity.
  - rewrite Hz. cbn [Z.ltb Z.compare andb].
    unfold bind, call.
    destruct (IsNaN _); [reflexivity|].
    destruct (_ || _)%bool; [reflexivity|].
    apply IH.
Qed.

Lemma bisectionBody_no_cap (f : float -> float) (tol : float) (m : Z)
    (minB maxB : bound) (c : Z) (log : list float) :
  (m <= 0)%Z ->
  bisectionBody f tol m minB maxB c log = bisectionBody f tol 0 minB maxB c log.
Proof.
  intros Hm. assert (Hz : (0 <? m)%Z = false) by (apply Z.ltb_ge; exact Hm).
  unfold bisectionBody, bind, call, ret. cbn zeta.
  rewrite Hz. reflexivity.
Qed.

Lemma bisectionLoop_no_cap (f : float -> float) (tol : float) (m : Z) (n : nat) :
  (m <= 0)%Z ->
  forall (minB maxB : bound) (c : Z) (log : list float),
    bisectionLoop n f tol m minB maxB c log
    = bisectionLoop n f tol 0 minB maxB c log.
Proof.
  intros Hm.
  induction n as [|n IH]; intros minB maxB c log; cbn [bisectionLoop].
  - reflexivity.
  - unfold bind. rewrite (bisectionBody_no_cap f tol m minB maxB c log Hm).
    destruct (bisectionBody f tol 0 minB maxB c log)
      as [[[res | [[a b] d]] | msg] l]; try reflexivity.
    apply IH.
Qed.

Lemma bind_ext {A B : Type} (m : Eval A) (k1 k2 : A -> Eval B)
    (log : list float) :
  (forall a l, k1 a l = k2 a l) -> bind m k1 log = bind m k2 log.
Proof.
  intros H. unfold bind. destruct (m log) as [[a | msg] l]; [apply H|reflexivity].
Qed.

Lemma getBoundsInfinite_no_cap (f : float -> float) (min max : float)
    (s : Settings) (log : list float) :
  (MaxEvals s <= 0)%Z ->
  getBoundsInfinite f min max (Some s) log
  = getBoundsInfinite f min max (Some (withMaxEvals s 0)) log.
Proof.
  intros Hm. unfold getBoundsInfinite. cbn zeta.
  cbn [withMaxEvals UseMinValue UseMaxValue MinValue MaxValue MaxEvals].
  apply bind_ext. intros minBound l1.
  apply bind_ext. intros maxBound l2.
  apply bind_ext. intros [r | [[[[a b] mi] ma] c]] l3; [reflexivity|].
  unfold infSearch.
  destruct ma; [apply infSearchLoop_no_cap; exact Hm|].
  destruct mi; [apply infSearchLoop_no_cap; exact Hm|reflexivity].
Qed.

(** X18: a cap [MaxEvals <= 0] is no cap: [Find] gives the same outcome
    and makes the same probes as with [MaxEvals] set to 0. *)
Theorem Find_nonpositive_cap_is_no_cap :
  forall (f : float -> float) (min max tol : float)
         (s : Settings) (log : list float),
    (MaxEvals s <= 0)%Z ->
    Find f min max tol (Some s) log
    = Find f min max tol (Some (withMaxEvals s 0)) log.
Proof.
  intros f min max tol s log Hm.
  assert (Hb : getBoundVals f min max tol (Some s) log
               = getBoundVals f min max tol (Some (withMaxEvals s 0)) log).
  { unfold getBoundVals.
    destruct (max <=? min); [reflexivity|]. cbn zeta.
    unfold knownValueCheck.
    cbn [withMaxEvals UseMinValue UseMaxValue MinValue MaxValue MaxEvals].
    destruct (if UseMinValue s then _ else _); [reflexivity|].
    destruct (if UseMaxValue s then _ else _); [reflexivity|].
    destruct (_ || _)%bool; [apply getBoundsInfinite_no_cap; exact Hm|].
    reflexivity. }
  unfold Find, bind. rewrite <- Hb.
  destruct (getBoundVals f min max tol (Some s) log)
    as [[[[[a b] c] [e|]] | msg] l]; [reflexivity| |reflexivity].
  unfold ret.
  destruct (Abs (value a) <? tol); [reflexivity|].
  destruct (Abs (value b) <? tol); [reflexivity|].
  cbn [withMaxEvals MaxEvals]. unfold bisection.
  apply bisectionLoop_no_cap. exact Hm.
Qed.

Lemma Find_nonpositive_cap_is_no_cap_witness :
  Find linear (-3) 10 1e-14 (Some (mkSettings false 0 false 0 (-5) false 0)) []
  = Find linear (-3) 10 1e-14
      (Some (withMaxEvals (mkSettings false 0 false 0 (-5) false 0) 0)) [].
Proof.
  apply (Find_nonpositive_cap_is_no_cap linear (-3) 10 1e-14
           (mkSettings false 0 false 0 (-5) false 0) []).
  cbn. lia.
Defined.
